(** * The JOS kernel monitor (kern/monitor.c)

    A shallow embedding of the command interpreter, the hex parser, the
    stack walker and the page-table commands, and the properties of the
    design document proved over it. *)

From Stdlib Require Import ZArith Lia String Ascii List.
From stdpp Require Import base option list gmap strings.

Local Open Scope Z_scope.

(** ** Machine integers and characters *)

(** [uint32_t] arithmetic wraps modulo 2^32. *)
Definition u32 (z : Z) : Z := z mod 2 ^ 32.

(** [~x] on a [uint32_t]. *)
Definition not32 (x : Z) : Z := u32 (Z.lnot x).

(** A [char] is a byte; the i386 ABI makes plain [char] signed, so the
    value a character takes in an [int] expression is in -128..127. *)
Definition schar (c : ascii) : Z :=
  let n := Z.of_N (N_of_ascii c) in
  if n <? 128 then n else n - 256.

(** The value a character has after the cast [(unsigned char)]. *)
Definition uchar (c : ascii) : Z := Z.of_N (N_of_ascii c).

(** Conversion of an [int] to [char] keeps the low eight bits. *)
Definition to_char (z : Z) : ascii := ascii_of_N (Z.to_N (z mod 256)).

Definition NUL : ascii := "000"%char.

Definition is_nul (c : ascii) : bool := bool_decide (c = NUL).

(** ** The machine state the monitor works on *)

(** One argument of a [cprintf] call. *)
Inductive arg : Type :=
| AInt (z : Z)
| AStr (s : list ascii).

(** What reaches the console boundary: the calls themselves, with the
    format string and the evaluated arguments. *)
Inductive event : Type :=
| Cprintf (fmt : string) (args : list arg)
| Prompt (p : string)
| PrintTrapframe (tf : Z).

Record machine : Type := Machine {
  linebuf : list ascii;   (* the line buffer [readline] hands out *)
  memory : gmap Z Z;      (* 32-bit words of kernel memory, by address *)
  console : list event;   (* console output, oldest first *)
  ebp : Z                 (* what [read_ebp()] returns *)
}.

Definition set_linebuf (l : list ascii) (m : machine) : machine :=
  Machine l (memory m) (console m) (ebp m).
Definition set_memory (mem : gmap Z Z) (m : machine) : machine :=
  Machine (linebuf m) mem (console m) (ebp m).
Definition emit (e : event) (m : machine) : machine :=
  Machine (linebuf m) (memory m) (console m ++ [e]) (ebp m).

(** How a piece of monitor code can end. *)
Inductive outcome (A : Type) : Type :=
| Ret (a : A) (m : machine)          (* returned normally *)
| Panic (msg : string) (m : machine) (* called [panic], which does not return *)
| Fault (m : machine)                (* touched memory that is not there *)
| Blocked (m : machine)              (* [readline] waits for more input *)
| Timeout.                           (* the step budget ran out *)
Arguments Ret {A} a m.
Arguments Panic {A} msg m.
Arguments Fault {A} m.
Arguments Blocked {A} m.
Arguments Timeout {A}.

Definition M (A : Type) : Type := machine -> outcome A.

Definition ret {A} (a : A) : M A := fun m => Ret a m.

Definition bind {A B} (c : M A) (k : A -> M B) : M B :=
  fun m =>
    match c m with
    | Ret a m' => k a m'
    | Panic msg m' => Panic msg m'
    | Fault m' => Fault m'
    | Blocked m' => Blocked m'
    | Timeout => Timeout
    end.

Declare Scope mon_scope.
Delimit Scope mon_scope with mon.
Notation "x <- c ;; k" := (bind c (fun x => k))
  (at level 100, c at next level, right associativity) : mon_scope.
Notation "c ;;; k" := (bind c (fun _ => k))
  (at level 100, right associativity) : mon_scope.
Local Open Scope mon_scope.

Definition timeout {A} : M A := fun _ => Timeout.
Definition panic {A} (msg : string) : M A := fun m => Panic msg m.
Definition cprintf (fmt : string) (args : list arg) : M unit :=
  fun m => Ret tt (emit (Cprintf fmt args) m).

(** [*p] for a word pointer. *)
Definition load (a : Z) : M Z :=
  fun m => match memory m !! a with
           | Some v => Ret v m
           | None => Fault m
           end.

(** [*p = v] for a word pointer. *)
Definition store (a v : Z) : M unit :=
  fun m => match memory m !! a with
           | Some _ => Ret tt (set_memory (<[a := v]> (memory m)) m)
           | None => Fault m
           end.

(** [*buf] for a pointer into the line buffer, given as an offset. *)
Definition peek (p : nat) : M ascii :=
  fun m => match linebuf m !! p with
           | Some c => Ret c m
           | None => Fault m
           end.

(** [*buf = c]. *)
Definition poke (p : nat) (c : ascii) : M unit :=
  fun m => match linebuf m !! p with
           | Some _ => Ret tt (set_linebuf (<[p := c]> (linebuf m)) m)
           | None => Fault m
           end.

(** ** The hex parser *)

(** The loop of [xtoi]; every round moves [buf] one character on, so the
    length of the buffer bounds the number of rounds. *)
Fixpoint xtoi_loop (fuel : nat) (buf : nat) (res : Z) : M Z :=
  match fuel with
  | O => timeout
  | S fuel' =>
      c <- peek buf ;;
      if is_nul c then ret res
      else
        (if schar "a" <=? schar c
         then poke buf (to_char (schar c - schar "a" + schar "0" + 10))
         else ret tt) ;;;
        c' <- peek buf ;;
        xtoi_loop fuel' (S buf) (u32 (res * 16 + schar c' - schar "0"))
  end.

Definition xtoi (buf : nat) : M Z :=
  fun m => xtoi_loop (S (length (linebuf m))) (buf + 2)%nat 0 m.

(** ** Collaborators outside monitor.c *)

(** [struct Eipdebuginfo] of kern/kdebug.h, as far as the monitor reads it. *)
Record Eipdebuginfo : Type := {
  eip_file : list ascii;
  eip_line : Z;
  eip_fn_name : list ascii;
  eip_fn_namelen : Z;
  eip_fn_addr : Z
}.

(** The constants, linker symbols and functions monitor.c takes from the
    rest of the kernel (inc/mmu.h, inc/memlayout.h, inc/types.h,
    kern/pmap.c, kern/kdebug.c). They are parameters of the development.
    [pgdir_walk va create mem] stands for
    [pgdir_walk(kern_pgdir, va, create)]: it returns the address of the
    entry, or 0 for a null pointer, and the memory it leaves behind (it
    may have allocated a page table). *)
Class Kernel : Type := {
  PGSIZE : Z;
  PTE_P : Z;
  PTE_W : Z;
  PTE_U : Z;
  KERNBASE : Z;
  _start : Z;
  entry : Z;
  etext : Z;
  edata : Z;
  end_ : Z;
  ROUNDUP : Z -> Z -> Z;
  pgdir_walk : Z -> Z -> gmap Z Z -> Z * gmap Z Z;
  debuginfo_eip : Z -> Eipdebuginfo
}.

(** Modelled from the spec: [strchr] of lib/string.c, used only to ask
    whether a character is in the whitespace set; [true] stands for a
    non-null result. *)
Definition strchr (s : list ascii) (c : ascii) : bool :=
  bool_decide (c ∈ s).

(** Modelled from the spec: [strcmp] of lib/string.c against a string
    literal [q], the result being 0 exactly on an exact match of the
    NUL-terminated string at [p]. *)
Fixpoint strcmp (p : nat) (q : list ascii) : M Z :=
  c <- peek p ;;
  match q with
  | [] => ret (uchar c - uchar NUL)
  | d :: q' =>
      if negb (is_nul c) && bool_decide (c = d)
      then strcmp (S p) q'
      else ret (uchar c - uchar d)
  end.

Definition CMDBUF_SIZE : Z := 80.

(** ** The command table *)

Record Command (F : Type) : Type := {
  name : string;
  desc : string;
  func : F   (* return -1 to force monitor to exit *)
}.
Arguments name {F} _.
Arguments desc {F} _.
Arguments func {F} _.

(** The functions the table points to. *)
Inductive monfn : Type :=
| fn_mon_help | fn_mon_kerninfo | fn_mon_backtrace
| fn_showmappings | fn_setm | fn_showvm.

Definition commands : list (Command monfn) := [
  {| name := "help"; desc := "Display this list of commands"; func := fn_mon_help |};
  {| name := "kerninfo"; desc := "Display information about the kernel"; func := fn_mon_kerninfo |};
  {| name := "backtrace"; desc := "Call mon_backtrace"; func := fn_mon_backtrace |};
  {| name := "showmp"; desc := "Display mapping from vm to pm"; func := fn_showmappings |};
  {| name := "setperm"; desc := "Set permission"; func := fn_setm |};
  {| name := "showvm"; desc := "Display virtual memory"; func := fn_showvm |}
].

(** The type of a command's [func]: it takes [argc], [argv] and the trap
    frame pointer [tf]; [argv] is the list of the tokens' offsets in the
    line buffer. *)
Definition handler : Type := Z -> list nat -> Z -> M Z.

(** [argv[i]]. *)
Definition argv_at (argv : list nat) (i : nat) : M nat :=
  fun m => match argv !! i with
           | Some p => Ret p m
           | None => Fault m
           end.

Definition chars (s : string) : list ascii := list_ascii_of_string s.

Definition WHITESPACE : list ascii :=
  ["009"; "013"; "010"; " "]%char.
Definition MAXARGS : Z := 16.

Section Monitor.
Context `{K : Kernel}.

(** *** Implementations of basic kernel monitor commands *)

Fixpoint mon_help_loop {F} (cmds : list (Command F)) : M unit :=
  match cmds with
  | [] => ret tt
  | c :: rest =>
      cprintf "%s - %s\n" [AStr (chars (name c)); AStr (chars (desc c))] ;;;
      mon_help_loop rest
  end.

Definition mon_help (argc : Z) (argv : list nat) (tf : Z) : M Z :=
  mon_help_loop commands ;;;
  ret 0.

Definition mon_kerninfo (argc : Z) (argv : list nat) (tf : Z) : M Z :=
  cprintf "Special kernel symbols:\n" [] ;;;
  cprintf "  _start                  %08x (phys)\n" [AInt _start] ;;;
  cprintf "  entry  %08x (virt)  %08x (phys)\n"
    [AInt entry; AInt (u32 (entry - KERNBASE))] ;;;
  cprintf "  etext  %08x (virt)  %08x (phys)\n"
    [AInt etext; AInt (u32 (etext - KERNBASE))] ;;;
  cprintf "  edata  %08x (virt)  %08x (phys)\n"
    [AInt edata; AInt (u32 (edata - KERNBASE))] ;;;
  cprintf "  end    %08x (virt)  %08x (phys)\n"
    [AInt end_; AInt (u32 (end_ - KERNBASE))] ;;;
  cprintf "Kernel executable memory footprint: %dKB\n"
    [AInt (ROUNDUP (end_ - entry) 1024 / 1024)] ;;;
  ret 0.

(** The [while (p)] loop of [mon_backtrace]; [p + i] on a [uint32_t*] is
    the address [p + 4 * i]. *)
Fixpoint backtrace_loop (fuel : nat) (p : Z) : M unit :=
  match fuel with
  | O => timeout
  | S fuel' =>
      if p =? 0 then ret tt
      else
        eip <- load (u32 (p + 4)) ;;
        let debuginfo := debuginfo_eip eip in
        a2 <- load (u32 (p + 8)) ;;
        a3 <- load (u32 (p + 12)) ;;
        a4 <- load (u32 (p + 16)) ;;
        a5 <- load (u32 (p + 20)) ;;
        a6 <- load (u32 (p + 24)) ;;
        cprintf "  ebp %08x  eip %08x  args %08x %08x %08x %08x %08x\n"
          [AInt p; AInt eip; AInt a2; AInt a3; AInt a4; AInt a5; AInt a6] ;;;
        cprintf "         %s:%d: %.*s+%d\n"
          [AStr (eip_file debuginfo); AInt (eip_line debuginfo);
           AInt (eip_fn_namelen debuginfo); AStr (eip_fn_name debuginfo);
           AInt (u32 (eip - eip_fn_addr debuginfo))] ;;;
        p' <- load p ;;
        backtrace_loop fuel' p'
  end.

Definition mon_backtrace (fuel : nat) (argc : Z) (argv : list nat) (tf : Z)
  : M Z :=
  cprintf "Stack backtrace:\n" [] ;;;
  (fun m => backtrace_loop fuel (ebp m) m) ;;;
  ret 0.

(** *** The page-table commands *)

Definition walk (va create : Z) : M Z :=
  fun m => let '(pte, mem) := pgdir_walk va create (memory m) in
           Ret pte (set_memory mem m).

Definition myprint (pte : Z) : M unit :=
  e <- load pte ;;
  cprintf "PTE_P: %x, PTE_W: %x, PTE_U: %x\n"
    [AInt (Z.land e PTE_P); AInt (Z.land e PTE_W); AInt (Z.land e PTE_U)].

(** One round of the [for] loop of [showmappings]. *)
Definition showmappings_body (begin : Z) : M unit :=
  pte <- walk begin 1 ;;
  (if pte =? 0 then panic "out of memory" else ret tt) ;;;
  e <- load pte ;;
  if negb (Z.land e PTE_P =? 0) then
    cprintf "page %x info as follow: " [AInt begin] ;;;
    myprint pte
  else
    cprintf "page not exist: %x\n" [AInt begin].

(** The [for] loop of [showmappings]: test, body, [begin += PGSIZE]. *)
Fixpoint showmappings_loop (fuel : nat) (begin end' : Z) : M unit :=
  match fuel with
  | O => timeout
  | S fuel' =>
      if begin <=? end' then
        showmappings_body begin ;;;
        showmappings_loop fuel' (u32 (begin + PGSIZE)) end'
      else ret tt
  end.

Definition showmappings (fuel : nat) (argc : Z) (argv : list nat) (tf : Z)
  : M Z :=
  if negb (argc =? 3) then
    cprintf "Usage: showmappings 0xbegin_addr 0xend_addr\n" [] ;;;
    ret 0
  else
    a1 <- argv_at argv 1 ;;
    begin <- xtoi a1 ;;
    a2 <- argv_at argv 2 ;;
    end' <- xtoi a2 ;;
    cprintf "RANGE: from %x to %x\n" [AInt begin; AInt end'] ;;;
    showmappings_loop fuel begin end' ;;;
    ret 0.

(** The [switch] of [setm] on the selector character. *)
Definition select_perm (c : ascii) : option Z :=
  if bool_decide (c = "P"%char) then Some PTE_P
  else if bool_decide (c = "W"%char) then Some PTE_W
  else if bool_decide (c = "U"%char) then Some PTE_U
  else None.

Definition setm (argc : Z) (argv : list nat) (tf : Z) : M Z :=
  if negb (argc =? 4) then
    cprintf "Usage: setm 0xaddr [clear(0)|set(1)] [P|W|U]\n" [] ;;;
    ret 0
  else
    a1 <- argv_at argv 1 ;;
    addr <- xtoi a1 ;;
    pte <- walk addr 1 ;;
    cprintf "%x before setperm: " [AInt addr] ;;;
    myprint pte ;;;
    a3 <- argv_at argv 3 ;;
    sel <- peek a3 ;;
    match select_perm sel with
    | None =>
        cprintf "Usage: setm 0xaddr [clear(0)|set(1)] [P|W|U]\n" [] ;;;
        ret 0
    | Some perm =>
        a2 <- argv_at argv 2 ;;
        flag <- peek a2 ;;
        e <- load pte ;;
        (if bool_decide (flag = "0"%char)
         then store pte (Z.land e (not32 perm))
         else store pte (Z.lor e perm)) ;;;
        cprintf "%x after setperm: " [AInt addr] ;;;
        myprint pte ;;;
        ret 0
    end.

(** The [for] loop of [showvm]; [addr + i] on a [void**] is the address
    [addr + 4 * i]. *)
Fixpoint showvm_loop (fuel : nat) (addr i n : Z) : M unit :=
  match fuel with
  | O => timeout
  | S fuel' =>
      if u32 i <? n then
        v <- load (u32 (addr + 4 * i)) ;;
        cprintf "VM at %x: %x\n" [AInt (u32 (addr + 4 * i)); AInt v] ;;;
        showvm_loop fuel' addr (i + 1) n
      else ret tt
  end.

Definition showvm (fuel : nat) (argc : Z) (argv : list nat) (tf : Z) : M Z :=
  if negb (argc =? 3) then
    cprintf "Usage: showvm 0xaddr 0xn\n" [] ;;;
    ret 0
  else
    a1 <- argv_at argv 1 ;;
    addr <- xtoi a1 ;;
    a2 <- argv_at argv 2 ;;
    n <- xtoi a2 ;;
    showvm_loop fuel addr 0 n ;;;
    ret 0.

(** Calling through a [func] pointer of the table. *)
Definition call (fuel : nat) (f : monfn) : handler :=
  match f with
  | fn_mon_help => mon_help
  | fn_mon_kerninfo => mon_kerninfo
  | fn_mon_backtrace => mon_backtrace fuel
  | fn_showmappings => showmappings fuel
  | fn_setm => setm
  | fn_showvm => showvm fuel
  end.

(** *** Kernel monitor command interpreter *)

(** [while ( *buf && strchr(WHITESPACE, *buf)) *buf++ = 0;] *)
Fixpoint gobble (fuel : nat) (buf : nat) : M nat :=
  match fuel with
  | O => timeout
  | S fuel' =>
      c <- peek buf ;;
      if negb (is_nul c) && strchr WHITESPACE c
      then poke buf NUL ;;; gobble fuel' (S buf)
      else ret buf
  end.

(** [while ( *buf && !strchr(WHITESPACE, *buf)) buf++;] *)
Fixpoint scan_arg (fuel : nat) (buf : nat) : M nat :=
  match fuel with
  | O => timeout
  | S fuel' =>
      c <- peek buf ;;
      if negb (is_nul c) && negb (strchr WHITESPACE c)
      then scan_arg fuel' (S buf)
      else ret buf
  end.

(** The [while (1)] loop of [runcmd]: [Some argv] when it leaves by
    [break], [None] when it leaves by the early [return 0]. *)
Fixpoint parse_args (fuel : nat) (buf : nat) (argv : list nat)
  : M (option (list nat)) :=
  match fuel with
  | O => timeout
  | S fuel' =>
      buf1 <- (fun m => gobble (S (length (linebuf m))) buf m) ;;
      c <- peek buf1 ;;
      if is_nul c then ret (Some argv)
      else if Z.of_nat (length argv) =? MAXARGS - 1 then
        cprintf "Too many arguments (max %d)\n" [AInt MAXARGS] ;;;
        ret None
      else
        buf2 <- (fun m => scan_arg (S (length (linebuf m))) buf1 m) ;;
        parse_args fuel' buf2 (argv ++ [buf1])
  end.

(** The string at [p], up to its terminator, for ["%s"]. *)
Fixpoint cstr_from (l : list ascii) : option (list ascii) :=
  match l with
  | [] => None
  | c :: l' => if is_nul c then Some [] else cons c <$> cstr_from l'
  end.
Definition cstr (l : list ascii) (p : nat) : option (list ascii) :=
  cstr_from (drop p l).
Definition read_cstr (p : nat) : M (list ascii) :=
  fun m => match cstr (linebuf m) p with
           | Some s => Ret s m
           | None => Fault m
           end.

(** The [for] loop over the table. *)
Fixpoint lookup_cmd {F} (call : F -> handler) (cmds : list (Command F))
    (argc : Z) (argv : list nat) (tf : Z) : M Z :=
  match cmds with
  | [] =>
      a0 <- argv_at argv 0 ;;
      s <- read_cstr a0 ;;
      cprintf "Unknown command '%s'\n" [AStr s] ;;;
      ret 0
  | c :: rest =>
      a0 <- argv_at argv 0 ;;
      r <- strcmp a0 (chars (name c)) ;;
      if r =? 0 then call (func c) argc argv tf
      else lookup_cmd call rest argc argv tf
  end.

(** [runcmd] over a table [cmds] whose [func] entries are called through
    [call]. *)
Definition runcmd_in {F} (call : F -> handler) (cmds : list (Command F))
    (buf : nat) (tf : Z) : M Z :=
  r <- (fun m => parse_args (S (length (linebuf m))) buf [] m) ;;
  match r with
  | None => ret 0
  | Some argv =>
      let argc := Z.of_nat (length argv) in
      if argc =? 0 then ret 0
      else lookup_cmd call cmds argc argv tf
  end.

Definition runcmd (fuel : nat) (buf : nat) (tf : Z) : M Z :=
  runcmd_in (call fuel) commands buf tf.

(** [readline("K> ")]: the operator's lines are given ahead as [input],
    [None] for a null result; each line is the image of the line buffer,
    and [buf] points to its start. With no line left the call waits. *)
Definition readline (prompt : string) (input : list (option (list ascii)))
  : M (option nat * list (option (list ascii))) :=
  fun m =>
    match input with
    | [] => Blocked (emit (Prompt prompt) m)
    | None :: rest => Ret (None, rest) (emit (Prompt prompt) m)
    | Some l :: rest =>
        Ret (Some 0%nat, rest) (set_linebuf l (emit (Prompt prompt) m))
    end.

(** The [while (1)] loop of [monitor]: one round per line of input. *)
Fixpoint monitor_loop (fuel : nat) (rounds : nat)
    (input : list (option (list ascii))) (tf : Z) : M unit :=
  match rounds with
  | O => timeout
  | S rounds' =>
      r <- readline "K> " input ;;
      match r with
      | (None, rest) => monitor_loop fuel rounds' rest tf
      | (Some buf, rest) =>
          s <- runcmd fuel buf tf ;;
          if s <? 0 then ret tt
          else monitor_loop fuel rounds' rest tf
      end
  end.

Definition monitor (fuel : nat) (input : list (option (list ascii)))
    (tf : Z) : M unit :=
  cprintf "Welcome to the JOS kernel monitor!\n" [] ;;;
  cprintf "Type 'help' for a list of commands.\n" [] ;;;
  (if negb (tf =? 0) then fun m => Ret tt (emit (PrintTrapframe tf) m)
   else ret tt) ;;;
  monitor_loop fuel (S (length input)) input tf.

End Monitor.

(** ** Notions of the design document *)

(** Modelled from the spec: the ["%x"] conversion of [cprintf]
    (lib/printfmt.c), which writes an unsigned value in lowercase
    hexadecimal digits without leading zeros. [fuel] bounds the number of
    digits; eight are enough for 32 bits. *)
Definition hexdigit (d : Z) : ascii :=
  nth (Z.to_nat d) (chars "0123456789abcdef") NUL.

Fixpoint printnum (fuel : nat) (num : Z) : list ascii :=
  match fuel with
  | O => []
  | S fuel' =>
      (if 16 <=? num then printnum fuel' (num / 16) else [])
        ++ [hexdigit (num mod 16)]
  end.

Definition fmt_x (v : Z) : list ascii := printnum 8 v.

(** The token ["0x%x"] makes of [v]. *)
Definition fmt_0x (v : Z) : list ascii := chars "0x" ++ fmt_x v.

(** What [xtoi] leaves in place of a character it has read. *)
Definition xtoi_char (c : ascii) : ascii :=
  if schar "a" <=? schar c
  then to_char (schar c - schar "a" + schar "0" + 10)
  else c.

(** One round of [xtoi]'s accumulation. *)
Definition xtoi_step (res : Z) (c : ascii) : Z :=
  u32 (res * 16 + schar (xtoi_char c) - schar "0").

(** The whitespace-separated tokens of a line, in the words of the
    design document: maximal runs of characters outside the whitespace
    set. [acc] is the run being read. *)
Definition is_ws (c : ascii) : bool := strchr WHITESPACE c.

Fixpoint words (acc : list ascii) (l : list ascii) : list (list ascii) :=
  match l with
  | [] => match acc with [] => [] | _ => [acc] end
  | c :: l' =>
      if is_ws c
      then match acc with [] => words [] l' | _ => acc :: words [] l' end
      else words (acc ++ [c]) l'
  end.

Definition tokens (line : list ascii) : list (list ascii) := words [] line.

(** What the tokenizer leaves of a line it has accepted. *)
Definition blank (c : ascii) : ascii := if is_ws c then NUL else c.

(** The head of what follows a run: nothing, or a character with
    [is_ws c = b]. *)
Definition starts (b : bool) (l : list ascii) : Prop :=
  match l with
  | [] => True
  | c :: _ => is_ws c = b
  end.

(** The diagnostic of the tokenizer. *)
Definition too_many : event :=
  Cprintf "Too many arguments (max %d)\n" [AInt MAXARGS].

(** A stack frame as the walker sees it: the frame pointer, the return
    address above it and the five words after that. *)
Record Frame : Type := {
  fr_ebp : Z;
  fr_eip : Z;
  fr_args : Z * Z * Z * Z * Z
}.

(** [frame_chain mem p fs]: the frames [fs] lie in [mem], linked through
    their saved frame pointers from [p] to a frame whose saved pointer
    is zero. *)
Inductive frame_chain (mem : gmap Z Z) : Z -> list Frame -> Prop :=
| chain_root : frame_chain mem 0 []
| chain_frame p eip a2 a3 a4 a5 a6 saved fs :
    p <> 0 ->
    mem !! p = Some saved ->
    mem !! u32 (p + 4) = Some eip ->
    mem !! u32 (p + 8) = Some a2 ->
    mem !! u32 (p + 12) = Some a3 ->
    mem !! u32 (p + 16) = Some a4 ->
    mem !! u32 (p + 20) = Some a5 ->
    mem !! u32 (p + 24) = Some a6 ->
    frame_chain mem saved fs ->
    frame_chain mem p
      ({| fr_ebp := p; fr_eip := eip; fr_args := (a2, a3, a4, a5, a6) |} :: fs).

(** The two lines the walker prints for a frame. *)
Definition frame_lines `{K : Kernel} (f : Frame) : list event :=
  let '(a2, a3, a4, a5, a6) := fr_args f in
  let info := debuginfo_eip (fr_eip f) in
  [Cprintf "  ebp %08x  eip %08x  args %08x %08x %08x %08x %08x\n"
     [AInt (fr_ebp f); AInt (fr_eip f);
      AInt a2; AInt a3; AInt a4; AInt a5; AInt a6];
   Cprintf "         %s:%d: %.*s+%d\n"
     [AStr (eip_file info); AInt (eip_line info);
      AInt (eip_fn_namelen info); AStr (eip_fn_name info);
      AInt (u32 (fr_eip f - eip_fn_addr info))]].

(** The lines of [setm] and the value it writes into the entry. *)
Definition usage_setm : event :=
  Cprintf "Usage: setm 0xaddr [clear(0)|set(1)] [P|W|U]\n" [].
Definition before_setperm (addr : Z) : event :=
  Cprintf "%x before setperm: " [AInt addr].
Definition printed `{K : Kernel} (e : Z) : event :=
  Cprintf "PTE_P: %x, PTE_W: %x, PTE_U: %x\n"
    [AInt (Z.land e PTE_P); AInt (Z.land e PTE_W); AInt (Z.land e PTE_U)].


(** A piece of code that returns 0 whenever it returns. *)
Definition returns0 (c : M Z) : Prop :=
  forall m r m', c m = Ret r m' -> r = 0.


(** ** A sample kernel *)

(** The values of the i386 headers and a kernel image, for evaluating the
    monitor on concrete input. The lookup is left open. *)
Definition sample_debuginfo (eip : Z) : Eipdebuginfo :=
  {| eip_file := chars "kern/init.c"; eip_line := 24;
     eip_fn_name := chars "i386_init"; eip_fn_namelen := 9;
     eip_fn_addr := eip - eip mod 256 |}.

Definition i386 (lookup : Z -> Z -> gmap Z Z -> Z * gmap Z Z) : Kernel :=
  {| PGSIZE := 4096; PTE_P := 1; PTE_W := 2; PTE_U := 4;
     KERNBASE := 0xF0000000;
     _start := 0x0010000c; entry := 0xf010000c; etext := 0xf0101a75;
     edata := 0xf0112300; end_ := 0xf0112960;
     ROUNDUP := fun a n => (a + n - 1) - (a + n - 1) mod n;
     pgdir_walk := lookup;
     debuginfo_eip := sample_debuginfo |}.

(** A lookup over one flat table at [0xf0400000], which allocates
    nothing; its entries are the words of [mem] there. *)
Definition flat_walk (va create : Z) (mem : gmap Z Z) : Z * gmap Z Z :=
  (0xf0400000 + 4 * (va / 4096), mem).

(** A lookup that finds no memory for the table. *)
Definition null_walk (va create : Z) (mem : gmap Z Z) : Z * gmap Z Z :=
  (0, mem).

(** A lookup that allocates the entry when it is not there yet. *)
Definition alloc_walk (va create : Z) (mem : gmap Z Z) : Z * gmap Z Z :=
  let pte := 0xf0400000 + 4 * (va / 4096) in
  (pte, match mem !! pte with Some _ => mem | None => <[pte := 0]> mem end).

(** A stack of three frames in memory. *)
Definition sample_stack : gmap Z Z :=
  list_to_map
    [ (0xf010ff18, 0xf010ff38); (0xf010ff1c, 0xf0100068);
      (0xf010ff20, 1); (0xf010ff24, 2); (0xf010ff28, 3);
      (0xf010ff2c, 4); (0xf010ff30, 5);
      (0xf010ff38, 0xf010ff58); (0xf010ff3c, 0xf0100069);
      (0xf010ff40, 6); (0xf010ff44, 7); (0xf010ff48, 8);
      (0xf010ff4c, 9); (0xf010ff50, 10);
      (0xf010ff58, 0); (0xf010ff5c, 0xf010003e);
      (0xf010ff60, 11); (0xf010ff64, 12); (0xf010ff68, 13);
      (0xf010ff6c, 14); (0xf010ff70, 15) ].

(** The line buffer after tokenization: the tokens, each with its
    terminator. *)
Definition tokenized (toks : list string) (mem : gmap Z Z) : machine :=
  {| linebuf := concat ((fun t => chars t ++ [NUL]) <$> toks);
     memory := mem; console := []; ebp := 0 |}.

(** A page table in which page [0x1000] is mapped, writable and
    user-accessible. *)
Definition sample_table : gmap Z Z := {[ 0xf0400004 := 0x1007 ]}.

Definition boot (line : string) (mem : gmap Z Z) : machine :=
  {| linebuf := chars line ++ [NUL]; memory := mem; console := [];
     ebp := 0 |}.

(** ** Further notions *)

(** [ends_in R c]: wherever [c] ends, the machine it leaves is related
    by [R] to the one it started on. *)
Definition ends_in (R : machine -> machine -> Prop) {A} (c : M A) : Prop :=
  forall m,
    match c m with
    | Ret _ m' | Panic _ m' | Fault m' | Blocked m' => R m m'
    | Timeout => True
    end.

(** Nothing but the console has changed, and the console has only
    grown. *)
Definition only_console (m m' : machine) : Prop :=
  memory m' = memory m /\ linebuf m' = linebuf m /\ ebp m' = ebp m /\
  console m `prefix_of` console m'.

(** A console event other than the print of a trap frame. *)
Definition no_trapframe (e : event) : bool :=
  match e with
  | PrintTrapframe _ => false
  | Cprintf _ _ | Prompt _ => true
  end.

(** The console has grown by events that are no print of a trap
    frame. *)
Definition no_trapframe_since (m m' : machine) : Prop :=
  exists rest,
    console m' = console m ++ rest /\ forallb no_trapframe rest = true.

(** What [monitor] prints before its first prompt. *)
Definition banner (tf : Z) : list event :=
  [Cprintf "Welcome to the JOS kernel monitor!\n" [];
   Cprintf "Type 'help' for a list of commands.\n" []]
  ++ (if tf =? 0 then [] else [PrintTrapframe tf]).

(** The value of a lowercase hexadecimal digit. *)
Definition hex_value (c : ascii) : option Z :=
  let n := schar c in
  if (schar "0" <=? n) && (n <=? schar "9") then Some (n - schar "0")
  else if (schar "a" <=? n) && (n <=? schar "f")
       then Some (n - schar "a" + 10)
       else None.

(** The number a string of hexadecimal digits denotes, most significant
    digit first. *)
Definition hex_number (ds : list ascii) : Z :=
  fold_left (fun acc c => acc * 16 + default 0 (hex_value c)) ds 0.

(** The commands that count their arguments, with the number of tokens
    they want and the line they print otherwise. *)
Definition usages : list (string * nat * string) :=
  [ ("showmp", 3%nat, "Usage: showmappings 0xbegin_addr 0xend_addr\n");
    ("setperm", 4%nat, "Usage: setm 0xaddr [clear(0)|set(1)] [P|W|U]\n");
    ("showvm", 3%nat, "Usage: showvm 0xaddr 0xn\n") ]%string.

(** The addresses of [n] consecutive words, from the [i]th after
    [addr]. *)
Fixpoint word_addrs (n : nat) (addr i : Z) : list Z :=
  match n with
  | O => []
  | S n' => u32 (addr + 4 * i) :: word_addrs n' addr (i + 1)
  end.

(** The line [showvm] prints for the word at [a]. *)
Definition showvm_line (mem : gmap Z Z) (a : Z) : event :=
  Cprintf "VM at %x: %x\n" [AInt a; AInt (default 0 (mem !! a))].

(** [n] page addresses from [begin], one page apart. *)
Fixpoint page_addrs `{K : Kernel} (n : nat) (begin : Z) : list Z :=
  match n with
  | O => []
  | S n' => begin :: page_addrs n' (begin + PGSIZE)
  end.

(** The lookup of the entry of [va] succeeds, allocates nothing and the
    entry can be read. *)
Definition page_mapped `{K : Kernel} (mem : gmap Z Z) (va : Z) : Prop :=
  exists pte e,
    pgdir_walk va 1 mem = (pte, mem) /\ pte <> 0 /\ mem !! pte = Some e.

(** What [showmappings] prints for the page at [va]. *)
Definition page_report `{K : Kernel} (mem : gmap Z Z) (va : Z)
  : list event :=
  match mem !! (pgdir_walk va 1 mem).1 with
  | Some e =>
      if negb (Z.land e PTE_P =? 0)
      then [Cprintf "page %x info as follow: " [AInt va]; printed e]
      else [Cprintf "page not exist: %x\n" [AInt va]]
  | None => []
  end.

(** Adding lines to the console. *)
Definition emits (es : list event) (m : machine) : machine :=
  Machine (linebuf m) (memory m) (console m ++ es) (ebp m).

(** [frame_path mem p fs q]: the frames [fs] lie in [mem], linked
    through their saved frame pointers from [p], and the last of them
    holds [q] as its saved pointer. *)
Inductive frame_path (mem : gmap Z Z) : Z -> list Frame -> Z -> Prop :=
| path_here p : frame_path mem p [] p
| path_frame p eip a2 a3 a4 a5 a6 saved fs q :
    p <> 0 ->
    mem !! p = Some saved ->
    mem !! u32 (p + 4) = Some eip ->
    mem !! u32 (p + 8) = Some a2 ->
    mem !! u32 (p + 12) = Some a3 ->
    mem !! u32 (p + 16) = Some a4 ->
    mem !! u32 (p + 20) = Some a5 ->
    mem !! u32 (p + 24) = Some a6 ->
    frame_path mem saved fs q ->
    frame_path mem p
      ({| fr_ebp := p; fr_eip := eip; fr_args := (a2, a3, a4, a5, a6) |} :: fs)
      q.

(** The line [mon_help] prints for an entry. *)
Definition help_line {F} (c : Command F) : event :=
  Cprintf "%s - %s\n" [AStr (chars (name c)); AStr (chars (desc c))].

(** A lookup that succeeds below [0x2000] and finds no memory for the
    table from there on. *)
Definition partial_walk (va create : Z) (mem : gmap Z Z) : Z * gmap Z Z :=
  if va <? 0x2000 then flat_walk va create mem else null_walk va create mem.

(** * Properties *)

(** ** The monitor on sample lines *)

Example help_lists_the_table :
  exists m', runcmd (K := i386 flat_walk) 8 0 0 (boot "help" ∅) = Ret 0 m' /\
             length (console m') = 6%nat.
Proof. eexists. split; vm_compute; reflexivity. Qed.

Example empty_line_is_no_op :
  runcmd (K := i386 flat_walk) 8 0 0 (boot "   " ∅)
  = Ret 0 {| linebuf := [NUL; NUL; NUL; NUL]; memory := ∅; console := [];
             ebp := 0 |}.
Proof. vm_compute. reflexivity. Qed.

Example unknown_command_is_reported :
  exists m', runcmd (K := i386 flat_walk) 8 0 0 (boot "quit now" ∅)
             = Ret 0 m' /\
             console m' = [Cprintf "Unknown command '%s'\n"
                             [AStr (chars "quit")]].
Proof. eexists. split; vm_compute; reflexivity. Qed.

Example showmp_present_and_absent :
  exists m',
    runcmd (K := i386 flat_walk) 8 0 0 (boot "showmp 0x1000 0x2000"
      (<[0xf0400008 := 0]> sample_table)) = Ret 0 m' /\
    console m' =
      [Cprintf "RANGE: from %x to %x\n" [AInt 0x1000; AInt 0x2000];
       Cprintf "page %x info as follow: " [AInt 0x1000];
       Cprintf "PTE_P: %x, PTE_W: %x, PTE_U: %x\n" [AInt 1; AInt 2; AInt 4];
       Cprintf "page not exist: %x\n" [AInt 0x2000]].
Proof. eexists. split; vm_compute; reflexivity. Qed.

Example setperm_clears_then_sets :
  exists m1 m2,
    runcmd (K := i386 flat_walk) 8 0 0 (boot "setperm 0x1000 0 W" sample_table)
      = Ret 0 m1 /\
    memory m1 = {[ 0xf0400004 := 0x1005 ]} /\
    runcmd (K := i386 flat_walk) 8 0 0
      (boot "setperm 0x1000 1 W" {[ 0xf0400004 := 0x1005 ]}) = Ret 0 m2 /\
    memory m2 = sample_table.
Proof.
  eexists _, _. split; [vm_compute; reflexivity|].
  split; [vm_compute; reflexivity|].
  split; vm_compute; reflexivity.
Qed.

(** Uppercase digits are not normalized: ["0xAB"] does not read as 171. *)
Example xtoi_uppercase :
  exists m', xtoi 0 (boot "0xAB" ∅) = Ret 290 m'.
Proof. eexists. vm_compute. reflexivity. Qed.

(** ** Bookkeeping on machines *)

Lemma set_linebuf_same m : set_linebuf (linebuf m) m = m.
Proof. by destruct m. Qed.

Lemma set_linebuf_twice l l' m :
  set_linebuf l (set_linebuf l' m) = set_linebuf l m.
Proof. done. Qed.

Lemma is_nul_true c : is_nul c = true <-> c = NUL.
Proof. unfold is_nul. apply bool_decide_eq_true. Qed.

Lemma is_nul_false c : is_nul c = false <-> c <> NUL.
Proof. unfold is_nul. apply bool_decide_eq_false. Qed.

Lemma peek_at pre c post m :
  linebuf m = pre ++ c :: post -> peek (length pre) m = Ret c m.
Proof.
  intros Hb. unfold peek. rewrite Hb.
  by rewrite list_lookup_middle.
Qed.

Lemma poke_at pre c post d m :
  linebuf m = pre ++ c :: post ->
  poke (length pre) d m = Ret tt (set_linebuf (pre ++ d :: post) m).
Proof.
  intros Hb. unfold poke. rewrite Hb.
  rewrite list_lookup_middle by done.
  by rewrite insert_app_r_alt, Nat.sub_diag.
Qed.

(** ** The hex parser *)

(** [xtoi]'s loop over a run of characters [ds] that ends at a
    terminator: it folds [xtoi_step] over the run and leaves every
    character replaced by its [xtoi_char]. *)
Lemma xtoi_loop_run ds : forall pre post res fuel m,
  NUL ∉ ds ->
  linebuf m = pre ++ ds ++ NUL :: post ->
  (length ds < fuel)%nat ->
  xtoi_loop fuel (length pre) res m
  = Ret (fold_left xtoi_step ds res)
        (set_linebuf (pre ++ (xtoi_char <$> ds) ++ NUL :: post) m).
Proof.
  induction ds as [|c ds IH]; intros pre post res fuel m Hnul Hb Hfuel;
    (destruct fuel as [|fuel]; [simpl in Hfuel; lia|]).
  - simpl in *. unfold bind. rewrite (peek_at _ _ _ _ Hb). simpl.
    by rewrite <- Hb, set_linebuf_same.
  - apply not_elem_of_cons in Hnul as [Hc Hnul].
    simpl in Hb, Hfuel. cbn [xtoi_loop]. unfold bind at 1.
    rewrite (peek_at _ _ _ _ Hb).
    apply not_eq_sym, is_nul_false in Hc as ->.
    set (m1 := set_linebuf (pre ++ xtoi_char c :: ds ++ NUL :: post) m).
    assert (Hb1 : linebuf m1 = (pre ++ [xtoi_char c]) ++ ds ++ NUL :: post)
      by (by rewrite <- app_assoc).
    assert (Hgo : xtoi_loop fuel (S (length pre))
                    (u32 (res * 16 + schar (xtoi_char c) - schar "0")) m1
                  = Ret (fold_left xtoi_step ds (xtoi_step res c))
                      (set_linebuf
                         (pre ++ (xtoi_char <$> c :: ds) ++ NUL :: post) m)).
    { replace (S (length pre)) with (length (pre ++ [xtoi_char c]))
        by (rewrite length_app; simpl; lia).
      rewrite (IH _ post _ fuel m1 Hnul Hb1) by lia.
      unfold m1. rewrite set_linebuf_twice, <- app_assoc. done. }
    unfold bind, xtoi_char in *. destruct (schar "a" <=? schar c) eqn:Hle.
    + rewrite (poke_at _ _ _ _ _ Hb). fold m1.
      rewrite (peek_at pre (to_char (schar c - schar "a" + schar "0" + 10))
                 (ds ++ NUL :: post) m1) by done.
      exact Hgo.
    + unfold ret. rewrite (peek_at _ _ _ _ Hb).
      replace m with m1 at 1; [exact Hgo|].
      unfold m1. by rewrite <- Hb, set_linebuf_same.
Qed.

Lemma xtoi_token pre c1 c2 ds post m :
  NUL ∉ ds ->
  linebuf m = pre ++ c1 :: c2 :: ds ++ NUL :: post ->
  xtoi (length pre) m
  = Ret (fold_left xtoi_step ds 0)
        (set_linebuf (pre ++ c1 :: c2 :: (xtoi_char <$> ds) ++ NUL :: post) m).
Proof.
  intros Hnul Hb. unfold xtoi.
  replace (length pre + 2)%nat with (length (pre ++ [c1; c2]))
    by (rewrite length_app; done).
  rewrite (xtoi_loop_run ds (pre ++ [c1; c2]) post).
  - by rewrite <- app_assoc.
  - done.
  - by rewrite Hb, <- app_assoc.
  - rewrite Hb. rewrite !length_app. simpl. rewrite length_app. simpl. lia.
Qed.

(** The step budget [xtoi] gives its loop is never used up: the loop
    ends at a terminator or runs off the buffer. *)
Lemma xtoi_loop_no_timeout fuel : forall p res m,
  (length (linebuf m) - p < fuel)%nat ->
  xtoi_loop fuel p res m <> Timeout.
Proof.
  induction fuel as [|fuel IH]; intros p res m Hfuel; [lia|].
  cbn [xtoi_loop]. unfold bind at 1. unfold peek at 1.
  destruct (linebuf m !! p) as [c|] eqn:Hp; [|done].
  pose proof (lookup_lt_Some _ _ _ Hp) as Hlt.
  destruct (is_nul c); [done|]. unfold bind at 1.
  destruct (schar "a" <=? schar c).
  - unfold poke. rewrite Hp. unfold bind, peek. simpl.
    rewrite list_lookup_insert_eq by done.
    apply IH. simpl. rewrite length_insert. lia.
  - unfold ret, bind, peek. rewrite Hp. apply IH. lia.
Qed.

Lemma xtoi_no_timeout buf m : xtoi buf m <> Timeout.
Proof. unfold xtoi. apply xtoi_loop_no_timeout. lia. Qed.

Lemma xtoi_char_changes c :
  (schar "a" <=? schar c) = true -> xtoi_char c <> c.
Proof.
  destruct c as [[] [] [] [] [] [] [] []]; vm_compute; congruence.
Qed.

Lemma xtoi_char_not_nul c : c <> NUL -> xtoi_char c <> NUL.
Proof.
  destruct c as [[] [] [] [] [] [] [] []]; vm_compute; congruence.
Qed.

Lemma fmap_moves {A} (f : A -> A) (l : list A) x :
  x ∈ l -> f x <> x -> f <$> l <> l.
Proof.
  induction l as [|y l IH]; intros Hin Hx.
  - by apply elem_of_nil in Hin.
  - simpl. intros [= Hy Hl]. apply elem_of_cons in Hin as [->|Hin]; [done|].
    by apply IH.
Qed.

Lemma cstr_from_token tok post :
  NUL ∉ tok -> cstr_from (tok ++ NUL :: post) = Some tok.
Proof.
  induction tok as [|c tok IH]; intros Hnul; simpl.
  - done.
  - apply not_elem_of_cons in Hnul as [Hc Hnul].
    apply not_eq_sym, is_nul_false in Hc as ->.
    by rewrite IH.
Qed.

Lemma cstr_token pre tok post :
  NUL ∉ tok -> cstr (pre ++ tok ++ NUL :: post) (length pre) = Some tok.
Proof.
  intros Hnul. unfold cstr. rewrite drop_app_length.
  by apply cstr_from_token.
Qed.

Lemma hexdigit_value d :
  0 <= d < 16 ->
  hexdigit d <> NUL /\ schar (xtoi_char (hexdigit d)) - schar "0" = d.
Proof.
  intros Hd. assert (Hin : d ∈ seqZ 0 16) by (apply elem_of_seqZ; lia).
  vm_compute seqZ in Hin.
  repeat (apply elem_of_cons in Hin as [->|Hin]; [by vm_compute|]).
  by apply elem_of_nil in Hin.
Qed.

Lemma printnum_parses n : forall v,
  0 <= v < 16 ^ Z.of_nat (S n) -> v < 2 ^ 32 ->
  (NUL ∉ printnum (S n) v) /\ fold_left xtoi_step (printnum (S n) v) 0 = v.
Proof.
  induction n as [|n IH]; intros v Hv H32.
  - change (16 ^ Z.of_nat 1) with 16 in Hv.
    destruct (hexdigit_value v Hv) as [Hnul Hval].
    cbn [printnum]. rewrite (proj2 (Z.leb_gt 16 v)) by lia.
    rewrite Z.mod_small by lia. simpl. split.
    + intros Hin. apply list_elem_of_singleton in Hin. congruence.
    + unfold xtoi_step. rewrite Z.mul_0_l, Z.add_0_l, Hval.
      unfold u32. apply Z.mod_small. lia.
  - assert (Hd : 0 <= v mod 16 < 16) by (apply Z.mod_pos_bound; lia).
    destruct (hexdigit_value _ Hd) as [Hnul Hval].
    change (printnum (S (S n)) v)
      with ((if 16 <=? v then printnum (S n) (v / 16) else [])
              ++ [hexdigit (v mod 16)]).
    assert (Hstep : xtoi_step (v / 16) (hexdigit (v mod 16)) = v).
    { unfold xtoi_step. rewrite <- Z.add_sub_assoc, Hval. unfold u32.
      rewrite Z.mul_comm, <- Z.div_mod by lia. apply Z.mod_small. lia. }
    destruct (16 <=? v) eqn:Hge.
    + apply Z.leb_le in Hge.
      destruct (IH (v / 16)) as [IHnul IHval].
      { split; [apply Z.div_pos; lia|].
        apply Z.div_lt_upper_bound; [lia|].
        rewrite <- Z.pow_succ_r by lia.
        replace (Z.succ (Z.of_nat (S n))) with (Z.of_nat (S (S n))) by lia.
        lia. }
      { apply Z.le_lt_trans with v; [|lia].
        apply Z.div_le_upper_bound; lia. }
      split.
      * intros Hin. apply elem_of_app in Hin as [Hin|Hin]; [done|].
        apply list_elem_of_singleton in Hin. congruence.
      * rewrite fold_left_app, IHval. simpl. exact Hstep.
    + apply Z.leb_gt in Hge. split.
      * intros Hin. apply list_elem_of_singleton in Hin. congruence.
      * simpl. rewrite <- (Z.div_small v 16) at 1 by lia. exact Hstep.
Qed.

(** The bytes [xtoi] rewrites are those from ['a'] to [0x7f]: a byte
    from [0x80] on is negative as a [char] and so below ['a']. *)
Lemma xtoi_char_by_byte c :
  if (uchar "a" <=? uchar c) && (uchar c <=? 127)
  then xtoi_char c = to_char (schar c - schar "a" + schar "0" + 10) /\
       xtoi_char c <> c
  else xtoi_char c = c.
Proof.
  destruct c as [[] [] [] [] [] [] [] []]; vm_compute;
    first [reflexivity | split; congruence].
Qed.

(** C10 (amended). [xtoi] works on its token in place: called on a token
    [c1 c2 ds] of the line buffer, it returns and leaves every character
    of [ds] whose value as a [char] is at least ['a'], that is every
    byte from [0x61] to [0x7f], overwritten by [c - 'a' + '0' + 10];
    the bytes below ['a'] and those from [0x80] on stay as they are, and
    so do the rest of the buffer, the memory and the console. The string
    at [argv[i]] differs from the text typed exactly when [ds] has a
    byte from [0x61] to [0x7f], a letter digit for one. *)
Theorem xtoi_rewrites_token (m : machine) (pre post ds : list ascii)
    (c1 c2 : ascii) :
  c1 <> NUL -> c2 <> NUL -> NUL ∉ ds ->
  linebuf m = pre ++ c1 :: c2 :: ds ++ NUL :: post ->
  exists v m',
    xtoi (length pre) m = Ret v m' /\
    linebuf m' = pre ++ c1 :: c2 :: (xtoi_char <$> ds) ++ NUL :: post /\
    memory m' = memory m /\ console m' = console m /\
    (forall c, uchar "a" <= uchar c <= 127 ->
       xtoi_char c = to_char (schar c - schar "a" + schar "0" + 10) /\
       xtoi_char c <> c) /\
    (forall c, uchar c < uchar "a" \/ 128 <= uchar c -> xtoi_char c = c) /\
    cstr (linebuf m) (length pre) = Some (c1 :: c2 :: ds) /\
    cstr (linebuf m') (length pre)
      = Some (c1 :: c2 :: (xtoi_char <$> ds)) /\
    ((exists c, c ∈ ds /\ uchar "a" <= uchar c <= 127) <->
     cstr (linebuf m') (length pre) <> cstr (linebuf m) (length pre)).
Proof.
  intros H1 H2 Hnul Hb.
  assert (Hnul' : NUL ∉ xtoi_char <$> ds).
  { intros Hin. apply list_elem_of_fmap in Hin as (c & Hc & Hin).
    apply (xtoi_char_not_nul c); [|done]. by intros ->. }
  assert (Hold : cstr (linebuf m) (length pre) = Some (c1 :: c2 :: ds)).
  { rewrite Hb. apply (cstr_token pre (c1 :: c2 :: ds) post).
    rewrite !not_elem_of_cons. auto. }
  assert (Hnew : cstr (pre ++ c1 :: c2 :: (xtoi_char <$> ds) ++ NUL :: post)
                   (length pre) = Some (c1 :: c2 :: (xtoi_char <$> ds))).
  { apply (cstr_token pre (c1 :: c2 :: (xtoi_char <$> ds)) post).
    rewrite !not_elem_of_cons. auto. }
  assert (Hin_range : forall c, uchar "a" <= uchar c <= 127 ->
            xtoi_char c = to_char (schar c - schar "a" + schar "0" + 10) /\
            xtoi_char c <> c).
  { intros c [Hlo Hhi]. pose proof (xtoi_char_by_byte c) as Hc.
    by rewrite (proj2 (Z.leb_le _ _) Hlo), (proj2 (Z.leb_le _ _) Hhi) in Hc. }
  assert (Hout_range : forall c, uchar c < uchar "a" \/ 128 <= uchar c ->
            xtoi_char c = c).
  { intros c Hc. pose proof (xtoi_char_by_byte c) as Hbyte.
    destruct Hc as [Hc|Hc].
    - by rewrite (proj2 (Z.leb_gt _ _) Hc) in Hbyte.
    - rewrite (proj2 (Z.leb_gt (uchar c) 127)), andb_false_r in Hbyte by lia.
      done. }
  eexists _, _. split; [exact (xtoi_token _ _ _ _ _ _ Hnul Hb)|]. simpl.
  do 7 (split; [done|]). rewrite Hold, Hnew. split.
  - intros (c & Hin & Hc) [= Heq].
    apply (fmap_moves xtoi_char ds c); [done| |done]. by apply Hin_range.
  - intros Hdiff.
    destruct (decide (Exists (fun c => uchar "a" <= uchar c <= 127) ds))
      as [Hex|Hno].
    + apply Exists_exists in Hex as (c & Hin & Hc). by exists c.
    + exfalso. apply Hdiff. do 3 f_equal.
      apply not_Exists_Forall in Hno; [|intros c; apply _].
      clear -Hno Hout_range. induction Hno as [|c ds Hc _ IH]; [done|].
      rewrite fmap_cons, IH. f_equal. apply Hout_range. simpl in Hc. lia.
Qed.

Lemma xtoi_rewrites_token_witness :
  let m := {| linebuf := chars "showmp" ++ NUL :: chars "0x3fa"
                           ++ NUL :: chars "0x4000" ++ [NUL];
              memory := ∅; console := []; ebp := 0 |} in
  exists v m',
    xtoi 7 m = Ret v m' /\
    linebuf m' = chars "showmp" ++ NUL :: chars "0x3?:"
                   ++ NUL :: chars "0x4000" ++ [NUL] /\
    cstr (linebuf m) 7 = Some (chars "0x3fa") /\
    cstr (linebuf m') 7 = Some (chars "0x3?:").
Proof.
  intros m.
  destruct (xtoi_rewrites_token m (chars "showmp" ++ [NUL])
              (chars "0x4000" ++ [NUL]) (chars "3fa") "0" "x")
    as (v & m' & Hx & Hl & _ & _ & _ & _ & Hold & Hnew & _);
    [done|done| |done|].
  - intros Hin. vm_compute in Hin.
    repeat (apply elem_of_cons in Hin as [Hin|Hin]; [discriminate Hin|]).
    by apply elem_of_nil in Hin.
  - exists v, m'. split; [exact Hx|]. split; [exact Hl|].
    split; [exact Hold|exact Hnew].
Defined.

(** C10 as it was stated fails: the byte [0xe9] after the prefix has a
    code above that of ['a'], yet [xtoi] leaves it, and the whole token,
    as it was. *)
Lemma xtoi_high_byte_counterexample :
  let m := {| linebuf := chars "0x" ++ ["233"%char; NUL];
              memory := ∅; console := []; ebp := 0 |} in
  uchar "a" <= uchar "233" /\
  "233"%char <> to_char (uchar "233" - uchar "a" + uchar "0" + 10) /\
  exists v m',
    xtoi 0 m = Ret v m' /\
    linebuf m' !! 2%nat = Some "233"%char /\
    linebuf m' = linebuf m /\
    cstr (linebuf m') 0 = cstr (linebuf m) 0.
Proof.
  intros m. split; [by vm_compute|]. split; [by vm_compute|].
  eexists _, _. split; [vm_compute; reflexivity|]. by repeat split.
Qed.

(** C4. Writing an unsigned 32-bit value with ["0x%x"] and reading the
    token back with [xtoi] gives the value again. *)
Theorem xtoi_fmt_roundtrip (v : Z) (m : machine) (pre post : list ascii) :
  0 <= v < 2 ^ 32 ->
  linebuf m = pre ++ fmt_0x v ++ NUL :: post ->
  exists m', xtoi (length pre) m = Ret v m' /\
             memory m' = memory m /\ console m' = console m.
Proof.
  intros Hv Hb.
  destruct (printnum_parses 7 v) as [Hnul Hval]; [|lia|].
  { change (16 ^ Z.of_nat 8) with (2 ^ 32). lia. }
  unfold fmt_0x, fmt_x in Hb. simpl in Hb.
  rewrite (xtoi_token pre "0" "x" (printnum 8 v) post m Hnul Hb), Hval.
  by eexists.
Qed.

Lemma xtoi_fmt_roundtrip_witness :
  exists m', xtoi 0 (boot "0xdeadbeef" ∅) = Ret 0xdeadbeef m' /\
             memory m' = ∅ /\ console m' = [].
Proof.
  apply (xtoi_fmt_roundtrip 0xdeadbeef (boot "0xdeadbeef" ∅) [] []).
  - lia.
  - reflexivity.
Defined.

(** ** The tokenizer *)

Lemma is_ws_not_nul c : is_ws c = true -> c <> NUL.
Proof. intros Hws ->. vm_compute in Hws. discriminate. Qed.

Lemma blank_true c : is_ws c = true -> blank c = NUL.
Proof. unfold blank. by intros ->. Qed.

Lemma blank_run tok : Forall (fun c => is_ws c = false) tok ->
  blank <$> tok = tok.
Proof.
  induction 1 as [|c tok Hc _ IH]; [done|].
  rewrite fmap_cons, IH. unfold blank. by rewrite Hc.
Qed.

(** The first inner loop blanks the whitespace in front of it. *)
Lemma gobble_run l : forall pre post fuel m,
  NUL ∉ l ->
  linebuf m = pre ++ l ++ NUL :: post ->
  (length l < fuel)%nat ->
  exists ws l1,
    l = ws ++ l1 /\ Forall (fun c => is_ws c = true) ws /\ starts false l1 /\
    gobble fuel (length pre) m
    = Ret (length (pre ++ (blank <$> ws)))
          (set_linebuf ((pre ++ (blank <$> ws)) ++ l1 ++ NUL :: post) m).
Proof.
  induction l as [|c l IH]; intros pre post fuel m Hnul Hb Hfuel;
    (destruct fuel as [|fuel]; [simpl in Hfuel; lia|]).
  - exists [], []. repeat split; [constructor|].
    simpl in *. unfold bind. rewrite (peek_at _ _ _ _ Hb). simpl.
    rewrite !app_nil_r. by rewrite <- Hb, set_linebuf_same.
  - apply not_elem_of_cons in Hnul as [Hc Hnul].
    simpl in Hb, Hfuel. cbn [gobble]. unfold bind at 1.
    rewrite (peek_at _ _ _ _ Hb).
    apply not_eq_sym, is_nul_false in Hc as ->. simpl.
    fold (is_ws c). destruct (is_ws c) eqn:Hws.
    + unfold bind. rewrite (poke_at _ _ _ NUL _ Hb).
      set (m1 := set_linebuf (pre ++ NUL :: l ++ NUL :: post) m).
      destruct (IH (pre ++ [NUL]) post fuel m1 Hnul)
        as (ws & l1 & -> & Hall & Hst & Hgo);
        [by unfold m1; simpl; rewrite <- app_assoc|lia|].
      exists (c :: ws), l1. repeat split; [by constructor|done|].
      replace (S (length pre)) with (length (pre ++ [NUL]))
        by (rewrite length_app; simpl; lia).
      rewrite Hgo, !fmap_cons, (blank_true c Hws).
      unfold m1. by rewrite set_linebuf_twice, <- !(app_assoc pre [NUL]).
    + exists [], (c :: l). repeat split; [constructor|done|].
      simpl. rewrite !app_nil_r. by rewrite <- Hb, set_linebuf_same.
Qed.

(** The second inner loop stops behind the token. *)
Lemma scan_arg_run l : forall pre post fuel m,
  NUL ∉ l ->
  linebuf m = pre ++ l ++ NUL :: post ->
  (length l < fuel)%nat ->
  exists tok l2,
    l = tok ++ l2 /\ Forall (fun c => is_ws c = false) tok /\ starts true l2 /\
    scan_arg fuel (length pre) m = Ret (length (pre ++ tok)) m.
Proof.
  induction l as [|c l IH]; intros pre post fuel m Hnul Hb Hfuel;
    (destruct fuel as [|fuel]; [simpl in Hfuel; lia|]).
  - exists [], []. repeat split; [constructor|].
    simpl in *. unfold bind. rewrite (peek_at _ _ _ _ Hb). simpl.
    by rewrite app_nil_r.
  - apply not_elem_of_cons in Hnul as [Hc Hnul].
    simpl in Hb, Hfuel. cbn [scan_arg]. unfold bind at 1.
    rewrite (peek_at _ _ _ _ Hb).
    apply not_eq_sym, is_nul_false in Hc as ->. simpl.
    fold (is_ws c). destruct (is_ws c) eqn:Hws; simpl.
    + exists [], (c :: l). repeat split; [constructor|done|].
      by rewrite app_nil_r.
    + destruct (IH (pre ++ [c]) post fuel m Hnul)
        as (tok & l2 & -> & Hall & Hst & Hgo);
        [by rewrite <- app_assoc|lia|].
      exists (c :: tok), l2. repeat split; [by constructor|done|].
      replace (S (length pre)) with (length (pre ++ [c]))
        by (rewrite length_app; simpl; lia).
      by rewrite Hgo, <- app_assoc.
Qed.

(** The same runs in the words of the design document. *)
Lemma words_ws ws l : Forall (fun c => is_ws c = true) ws ->
  words [] (ws ++ l) = words [] l.
Proof. induction 1 as [|c ws Hc _ IH]; simpl; [done|]. by rewrite Hc. Qed.

Lemma words_run tok : forall acc l,
  Forall (fun c => is_ws c = false) tok ->
  words acc (tok ++ l) = words (acc ++ tok) l.
Proof.
  induction tok as [|c tok IH]; intros acc l Hall; simpl.
  - by rewrite app_nil_r.
  - apply Forall_cons in Hall as [Hc Hall].
    rewrite Hc, IH by done. by rewrite <- app_assoc.
Qed.

Lemma tokens_cons c tok l2 :
  Forall (fun c => is_ws c = false) (c :: tok) -> starts true l2 ->
  tokens ((c :: tok) ++ l2) = (c :: tok) :: tokens l2.
Proof.
  intros Hall Hst. unfold tokens. rewrite words_run by done. simpl.
  destruct l2 as [|w l2]; simpl in *; [done|]. by rewrite Hst.
Qed.

(** The outer loop against [tokens]: with room for all tokens it leaves
    by [break], having stored where each token starts and blanked the
    whitespace; else it leaves by the early return. *)
Lemma parse_args_tokens fuel : forall l pre post argv m,
  NUL ∉ l ->
  linebuf m = pre ++ l ++ NUL :: post ->
  (length l < fuel)%nat ->
  let final := pre ++ (blank <$> l) ++ NUL :: post in
  ((length argv + length (tokens l) <= 15)%nat ->
   exists offs,
     parse_args fuel (length pre) argv m
       = Ret (Some (argv ++ offs)) (set_linebuf final m) /\
     Forall2 (fun a t => cstr final a = Some t) offs (tokens l)) /\
  ((length argv <= 15 < length argv + length (tokens l))%nat ->
   exists l',
     parse_args fuel (length pre) argv m
       = Ret None (emit too_many (set_linebuf l' m))).
Proof.
  induction fuel as [|fuel IH]; intros l pre post argv m Hnul Hb Hfuel;
    [lia|].
  cbn [parse_args]. unfold bind.
  destruct (gobble_run l pre post (S (length (linebuf m))) m Hnul Hb)
    as (ws & l1 & -> & Hws & Hst1 & ->).
  { rewrite Hb, !length_app. simpl. lia. }
  set (pre1 := pre ++ (blank <$> ws)).
  set (m1 := set_linebuf (pre1 ++ l1 ++ NUL :: post) m).
  assert (Hb1 : linebuf m1 = pre1 ++ l1 ++ NUL :: post) by done.
  apply not_elem_of_app in Hnul as [_ Hnul1].
  unfold tokens. rewrite words_ws by done. fold (tokens l1).
  destruct l1 as [|c l1].
  - (* only whitespace was left *)
    rewrite (peek_at pre1 NUL post m1) by done. simpl.
    rewrite !app_nil_r. split; [|lia].
    intros _. exists []. rewrite app_nil_r. split; [|constructor].
    unfold ret, m1, pre1. by rewrite <- app_assoc.
  - rewrite (peek_at pre1 c (l1 ++ NUL :: post) m1) by done.
    apply not_elem_of_cons in Hnul1 as Hc. destruct Hc as [Hc _].
    apply not_eq_sym, is_nul_false in Hc as ->.
    simpl in Hst1.
    destruct (scan_arg_run (c :: l1) pre1 post (S (length (linebuf m1))) m1
                Hnul1 Hb1)
      as (tok & l2 & Hl & Htok & Hst2 & Hscan).
    { rewrite Hb1, !length_app. simpl. lia. }
    destruct tok as [|c' tok].
    { simpl in Hl. subst l2. simpl in Hst2. congruence. }
    injection Hl as <- ->.
    pose proof (tokens_cons c tok l2 Htok Hst2) as Htk. simpl in Htk.
    rewrite Htk. clear Htk. simpl length.
    destruct (Z.of_nat (length argv) =? MAXARGS - 1) eqn:Hfull.
    + (* the table of arguments is full *)
      apply Z.eqb_eq in Hfull. unfold MAXARGS in Hfull.
      split; [lia|]. intros _. by eexists.
    + apply Z.eqb_neq in Hfull. unfold MAXARGS in Hfull.
      rewrite Hscan.
      change (c :: tok ++ l2) with ((c :: tok) ++ l2) in Hnul1.
      apply not_elem_of_app in Hnul1 as [Hnul_tok Hnul2].
      destruct (IH l2 (pre1 ++ c :: tok) post (argv ++ [length pre1]) m1
                  Hnul2) as [IHok IHmany].
      { unfold m1. simpl. by rewrite <- !app_assoc. }
      { rewrite !length_app in Hfuel. simpl in Hfuel.
        rewrite length_app in Hfuel. lia. }
      rewrite length_app in IHok, IHmany. simpl in IHok, IHmany.
      assert (Hfinal : (pre1 ++ c :: tok) ++ (blank <$> l2) ++ NUL :: post
                       = pre ++ (blank <$> ws ++ c :: tok ++ l2)
                           ++ NUL :: post).
      { change (c :: tok ++ l2) with ((c :: tok) ++ l2).
        unfold pre1. rewrite !fmap_app, (blank_run (c :: tok)) by done.
        by rewrite <- !app_assoc. }
      split.
      * intros Hroom. destruct IHok as (offs & Hgo & Hoffs); [lia|].
        exists (length pre1 :: offs). split.
        -- rewrite Hgo. unfold m1. rewrite set_linebuf_twice, Hfinal.
           by rewrite <- app_assoc.
        -- constructor; [|by rewrite <- Hfinal].
           rewrite <- Hfinal, <- app_assoc.
           destruct l2 as [|w l2]; simpl in Hst2.
           ++ by apply (cstr_token pre1 (c :: tok) post).
           ++ rewrite fmap_cons, (blank_true w Hst2).
              by apply (cstr_token pre1 (c :: tok)).
      * intros Hmany. destruct IHmany as (l' & Hgo); [lia|].
        exists l'. rewrite Hgo. by unfold m1.
Qed.

(** ** The interpreter *)

Lemma uchar_inj c d : uchar c = uchar d -> c = d.
Proof.
  unfold uchar. intros H. apply N2Z.inj in H.
  by rewrite <- (ascii_N_embedding c), <- (ascii_N_embedding d), H.
Qed.

Lemma cstr_unfold l p tok :
  cstr l p = Some tok ->
  exists c, l !! p = Some c /\
    (if is_nul c then tok = []
     else exists tok', tok = c :: tok' /\ cstr l (S p) = Some tok').
Proof.
  unfold cstr. intros H.
  destruct (l !! p) as [c|] eqn:Hp.
  - exists c. split; [done|]. rewrite (drop_S _ _ _ Hp) in H. simpl in H.
    destruct (is_nul c); [congruence|].
    destruct (cstr_from (drop (S p) l)) as [tok'|]; [|done].
    exists tok'. split; [|done]. simpl in H. congruence.
  - rewrite drop_ge in H by (by apply lookup_ge_None). done.
Qed.

Lemma cstr_no_nul l p tok : cstr l p = Some tok -> NUL ∉ tok.
Proof.
  unfold cstr. generalize (drop p l). clear l p. intros l. revert tok.
  induction l as [|x l IH]; intros tok Htok; simpl in Htok; [done|].
  destruct (is_nul x) eqn:Hx.
  - injection Htok as <-. apply not_elem_of_nil.
  - destruct (cstr_from l) as [t|]; [|done]. injection Htok as <-.
    apply is_nul_false in Hx. apply not_elem_of_cons. split; [done|].
    by apply IH.
Qed.

(** [strcmp] gives 0 exactly when the string at [p] is the literal. *)
Lemma strcmp_cstr q : forall p tok m,
  NUL ∉ q ->
  cstr (linebuf m) p = Some tok ->
  exists r, strcmp p q m = Ret r m /\ (r = 0 <-> tok = q).
Proof.
  induction q as [|d q IH]; intros p tok m Hq Htok;
    destruct (cstr_unfold _ _ _ Htok) as (c & Hp & Hc);
    simpl; unfold bind, peek; rewrite Hp.
  - eexists. split; [done|].
    destruct (is_nul c) eqn:Hn.
    + apply is_nul_true in Hn. subst. done.
    + apply is_nul_false in Hn. destruct Hc as (tok' & -> & _).
      split; [|done]. intros H. exfalso. apply Hn, uchar_inj. lia.
  - apply not_elem_of_cons in Hq as [Hd Hq].
    destruct (is_nul c) eqn:Hn; simpl.
    + apply is_nul_true in Hn. subst. eexists. split; [done|].
      split; [|done]. intros H. exfalso. apply Hd, uchar_inj. lia.
    + destruct Hc as (tok' & -> & Htok'). case_bool_decide as Hcd.
      * subst d. destruct (IH (S p) tok' m Hq Htok') as (r & Hr & Hiff).
        exists r. split; [done|]. rewrite Hiff. split; congruence.
      * eexists. split; [done|]. split; [|congruence].
        intros H. exfalso. apply Hcd, uchar_inj. lia.
Qed.

(** The scan of the table stops at the first entry named like the
    token. *)
Lemma lookup_cmd_first {F} (call : F -> handler) before : forall e after
    argc argv tf m a0 tok,
  argv !! 0%nat = Some a0 ->
  cstr (linebuf m) a0 = Some tok ->
  Forall (fun c => (NUL ∉ chars (name c)) /\ chars (name c) <> tok) before ->
  chars (name e) = tok ->
  lookup_cmd call (before ++ e :: after) argc argv tf m
  = call (func e) argc argv tf m.
Proof.
  induction before as [|c before IH];
    intros e after argc argv tf m a0 tok Ha0 Htok Hbefore He;
    simpl; unfold bind, argv_at; rewrite Ha0.
  - destruct (strcmp_cstr (chars (name e)) a0 tok m) as (r & -> & Hr);
      [|done|].
    + rewrite He. by apply (cstr_no_nul _ _ _ Htok).
    + by rewrite (proj2 (Z.eqb_eq r 0) (proj2 Hr (eq_sym He))).
  - apply Forall_cons in Hbefore as [[Hnul Hne] Hbefore].
    destruct (strcmp_cstr (chars (name c)) a0 tok m Hnul Htok)
      as (r & -> & Hr).
    destruct (r =? 0) eqn:Hr0.
    + apply Z.eqb_eq, Hr in Hr0. congruence.
    + by apply (IH e after argc argv tf m a0 tok).
Qed.

(** Settling a decidable side condition on concrete data. *)
Ltac by_compute := apply (bool_decide_unpack _); vm_compute; exact I.

(** A line of at most 15 tokens: the loop stores all of them, and
    [runcmd] goes on to the table unless the line was empty. *)
Lemma runcmd_in_tokenized (m : machine) (pre line post : list ascii)
    (tf : Z) :
  NUL ∉ line ->
  linebuf m = pre ++ line ++ NUL :: post ->
  (length (tokens line) <= 15)%nat ->
  let m1 := set_linebuf (pre ++ (blank <$> line) ++ NUL :: post) m in
  exists argv,
    parse_args (S (length (linebuf m))) (length pre) [] m
      = Ret (Some argv) m1 /\
    Forall2 (fun a t => cstr (linebuf m1) a = Some t) argv (tokens line) /\
    forall (F : Type) (call : F -> handler) (cmds : list (Command F)),
      runcmd_in call cmds (length pre) tf m
      = if decide (argv = []) then Ret 0 m1
        else lookup_cmd call cmds (Z.of_nat (length argv)) argv tf m1.
Proof.
  intros Hnul Hb Hlen m1.
  destruct (parse_args_tokens (S (length (linebuf m))) line pre post [] m
              Hnul Hb) as [Hok _].
  { rewrite Hb, !length_app. simpl. lia. }
  destruct Hok as (argv & Hgo & Hargv); [done|].
  rewrite app_nil_l in Hgo.
  exists argv. split; [done|]. split; [done|].
  intros F call cmds. unfold runcmd_in, bind. rewrite Hgo.
  destruct argv as [|a argv]; [done|].
  rewrite decide_False by done.
  replace (Z.of_nat (length (a :: argv)) =? 0) with false; [done|].
  symmetry. apply Z.eqb_neq. simpl. lia.
Qed.

(** C6. A line of more than 15 tokens is turned down: [runcmd] prints
    the diagnostic and returns 0 whatever the table holds, so no handler
    runs and the memory is as before. A line of at most 15 tokens is
    tokenized in full without the diagnostic, and [runcmd] goes on to the
    table (or returns 0 on an empty line). *)
Theorem runcmd_token_limit (m : machine) (pre line post : list ascii)
    (tf : Z) :
  NUL ∉ line ->
  linebuf m = pre ++ line ++ NUL :: post ->
  ((15 < length (tokens line))%nat ->
   exists m',
     (forall (F : Type) (call : F -> handler) (cmds : list (Command F)),
        runcmd_in call cmds (length pre) tf m = Ret 0 m') /\
     console m' = console m ++ [too_many] /\
     memory m' = memory m) /\
  ((length (tokens line) <= 15)%nat ->
   let m1 := set_linebuf (pre ++ (blank <$> line) ++ NUL :: post) m in
   exists argv,
     parse_args (S (length (linebuf m))) (length pre) [] m
       = Ret (Some argv) m1 /\
     Forall2 (fun a t => cstr (linebuf m1) a = Some t) argv (tokens line) /\
     console m1 = console m /\
     forall (F : Type) (call : F -> handler) (cmds : list (Command F)),
       runcmd_in call cmds (length pre) tf m
       = if decide (argv = []) then Ret 0 m1
         else lookup_cmd call cmds (Z.of_nat (length argv)) argv tf m1).
Proof.
  intros Hnul Hb. split.
  - intros Hlen.
    destruct (parse_args_tokens (S (length (linebuf m))) line pre post [] m
                Hnul Hb) as [_ Hmany].
    { rewrite Hb, !length_app. simpl. lia. }
    destruct Hmany as (l' & Hgo); [simpl; lia|].
    eexists. split; [|split].
    + intros F call cmds. unfold runcmd_in, bind. rewrite Hgo. reflexivity.
    + done.
    + done.
  - intros Hlen m1.
    destruct (runcmd_in_tokenized m pre line post tf Hnul Hb Hlen)
      as (argv & Hgo & Hargv & Hrun).
    exists argv. by repeat split.
Qed.

Lemma runcmd_token_limit_witness :
  (exists m',
     runcmd_in (call (K := i386 flat_walk) 8) commands 0 0
       (boot "a b c d e f g h i j k l m n o p" ∅) = Ret 0 m' /\
     console m' = [too_many]) /\
  (exists argv m1,
     parse_args 31 0 []
       (boot "a b c d e f g h i j k l m n o" ∅) = Ret (Some argv) m1 /\
     length argv = 15%nat /\ console m1 = []).
Proof.
  split.
  - destruct (runcmd_token_limit (boot "a b c d e f g h i j k l m n o p" ∅)
                [] (chars "a b c d e f g h i j k l m n o p") [] 0)
      as [Hmany _]; [by_compute|done|].
    destruct Hmany as (m' & Hrun & Hcon & _); [vm_compute; lia|].
    exists m'. split; [apply Hrun|exact Hcon].
  - destruct (runcmd_token_limit (boot "a b c d e f g h i j k l m n o" ∅)
                [] (chars "a b c d e f g h i j k l m n o") [] 0)
      as [_ Hok]; [by_compute|done|].
    destruct Hok as (argv & Hgo & Hargv & Hcon & _); [vm_compute; lia|].
    eexists argv, _. split; [exact Hgo|]. split; [|exact Hcon].
    by rewrite (Forall2_length _ _ _ Hargv).
Defined.

(** C2. When the first token of the line is the name of an entry [e] of
    the table and no entry before [e] has that name, [runcmd] calls the
    [func] of [e] with the whole argument vector and the trap frame and
    returns what it returns; what comes after [e] in the table, an entry
    of the same name included, plays no part. *)
Theorem runcmd_first_match {F : Type} (call : F -> handler)
    (before after : list (Command F)) (e : Command F)
    (m : machine) (pre line post tok : list ascii)
    (rest : list (list ascii)) (tf : Z) :
  NUL ∉ line ->
  linebuf m = pre ++ line ++ NUL :: post ->
  tokens line = tok :: rest ->
  (length rest < 15)%nat ->
  chars (name e) = tok ->
  Forall (fun c => (NUL ∉ chars (name c)) /\ chars (name c) <> tok) before ->
  let m1 := set_linebuf (pre ++ (blank <$> line) ++ NUL :: post) m in
  exists argv,
    Forall2 (fun a t => cstr (linebuf m1) a = Some t) argv (tok :: rest) /\
    runcmd_in call (before ++ e :: after) (length pre) tf m
    = call (func e) (Z.of_nat (length argv)) argv tf m1.
Proof.
  intros Hnul Hb Htok Hlen He Hbefore m1.
  destruct (runcmd_in_tokenized m pre line post tf Hnul Hb)
    as (argv & _ & Hargv & Hrun); [rewrite Htok; simpl; lia|].
  fold m1 in Hargv, Hrun. rewrite Htok in Hargv.
  exists argv. split; [done|]. rewrite Hrun.
  apply Forall2_cons_inv_r in Hargv as (a0 & argv' & Ha0 & _ & ->).
  rewrite decide_False by done.
  by apply (lookup_cmd_first call before e after _ _ tf m1 a0 tok).
Qed.

Lemma runcmd_first_match_witness :
  let table :=
    [ {| name := "kerninfo"; desc := "first"; func := fn_mon_help |};
      {| name := "help"; desc := "second"; func := fn_mon_kerninfo |};
      {| name := "help"; desc := "third"; func := fn_mon_backtrace |} ] in
  exists argv m1,
    runcmd_in (call (K := i386 flat_walk) 8) table 0 0 (boot " help me" ∅)
    = mon_kerninfo (K := i386 flat_walk) (Z.of_nat (length argv)) argv 0 m1.
Proof.
  intros table.
  destruct (runcmd_first_match (call (K := i386 flat_walk) 8)
              [ {| name := "kerninfo"; desc := "first"; func := fn_mon_help |} ]
              [ {| name := "help"; desc := "third"; func := fn_mon_backtrace |} ]
              {| name := "help"; desc := "second"; func := fn_mon_kerninfo |}
              (boot " help me" ∅) [] (chars " help me") [] (chars "help")
              [chars "me"] 0)
    as (argv & Hargv & Hrun).
  - by_compute.
  - reflexivity.
  - reflexivity.
  - simpl. lia.
  - reflexivity.
  - constructor; [|constructor]. split; [by_compute|]. simpl. congruence.
  - exists argv. eexists. exact Hrun.
Defined.

(** ** The stack walker *)

Section Walker.
Context `{K : Kernel}.

Lemma load_at a v m : memory m !! a = Some v -> load a m = Ret v m.
Proof. unfold load. by intros ->. Qed.

(** The loop over a chain: two lines per frame, in the order of the
    chain, and nothing but the console touched. *)
Lemma backtrace_loop_chain mem p fs :
  frame_chain mem p fs ->
  forall fuel m,
    memory m = mem ->
    (length fs < fuel)%nat ->
    backtrace_loop fuel p m
    = Ret tt {| linebuf := linebuf m; memory := mem;
                console := console m ++ concat (frame_lines <$> fs);
                ebp := ebp m |}.
Proof.
  induction 1 as [|p eip a2 a3 a4 a5 a6 saved fs Hp H0 H1 H2 H3 H4 H5 H6 _ IH];
    intros fuel m Hmem Hfuel;
    (destruct fuel as [|fuel]; [simpl in Hfuel; lia|]).
  - simpl. rewrite app_nil_r. destruct m. simpl in Hmem. by subst.
  - cbn [backtrace_loop]. rewrite (proj2 (Z.eqb_neq p 0) Hp).
    subst mem. unfold bind.
    rewrite (load_at _ _ _ H1), (load_at _ _ _ H2), (load_at _ _ _ H3),
      (load_at _ _ _ H4), (load_at _ _ _ H5), (load_at _ _ _ H6).
    cbn [cprintf].
    rewrite (load_at p saved) by done.
    rewrite IH by (done || simpl in *; lia).
    simpl. by rewrite <- !app_assoc.
Qed.

(** C5. On a chain of [k] frames from the current frame pointer to a
    frame whose saved pointer is zero, [mon_backtrace] returns 0 having
    printed the heading and then, frame by frame in the order of the
    chain, the frame pointer, the return address read at offset 4, the
    five words after it and the resolved symbol information: [k] frames,
    two lines each. Memory and line buffer are as they were. *)
Theorem mon_backtrace_walks_chain (m : machine) (fs : list Frame)
    (fuel : nat) (argc : Z) (argv : list nat) (tf : Z) :
  frame_chain (memory m) (ebp m) fs ->
  (length fs < fuel)%nat ->
  exists m',
    mon_backtrace fuel argc argv tf m = Ret 0 m' /\
    console m'
      = console m ++ Cprintf "Stack backtrace:\n" []
                       :: concat (frame_lines <$> fs) /\
    length (console m') = (length (console m) + 1 + 2 * length fs)%nat /\
    memory m' = memory m /\ linebuf m' = linebuf m /\ ebp m' = ebp m.
Proof.
  intros Hchain Hfuel. unfold mon_backtrace, bind. cbn [cprintf].
  rewrite (backtrace_loop_chain (memory m) (ebp m) fs Hchain) by done.
  eexists. split; [done|]. simpl. rewrite <- app_assoc.
  repeat split; try done.
  assert (Hlen : length (concat (frame_lines <$> fs)) = (2 * length fs)%nat).
  { clear. induction fs as [|f fs IH]; [done|].
    rewrite fmap_cons. simpl concat. rewrite length_app, IH.
    unfold frame_lines. destruct (fr_args f) as [[[[? ?] ?] ?] ?].
    simpl. lia. }
  rewrite length_app. simpl. rewrite Hlen. lia.
Qed.

End Walker.

Lemma mon_backtrace_walks_chain_witness :
  exists m',
    mon_backtrace (K := i386 flat_walk) 4 1 [0%nat] 0
      {| linebuf := chars "backtrace" ++ [NUL]; memory := sample_stack;
         console := []; ebp := 0xf010ff18 |} = Ret 0 m' /\
    length (console m') = 7%nat /\ memory m' = sample_stack.
Proof.
  destruct (mon_backtrace_walks_chain (K := i386 flat_walk)
              {| linebuf := chars "backtrace" ++ [NUL];
                 memory := sample_stack; console := [];
                 ebp := 0xf010ff18 |}
              [ {| fr_ebp := 0xf010ff18; fr_eip := 0xf0100068;
                   fr_args := (1, 2, 3, 4, 5) |};
                {| fr_ebp := 0xf010ff38; fr_eip := 0xf0100069;
                   fr_args := (6, 7, 8, 9, 10) |};
                {| fr_ebp := 0xf010ff58; fr_eip := 0xf010003e;
                   fr_args := (11, 12, 13, 14, 15) |} ]
              4 1 [0%nat] 0) as (m' & Hrun & _ & Hlen & Hmem & _).
  - simpl.
    apply (chain_frame _ _ _ _ _ _ _ _ 0xf010ff38); [done|by vm_compute..|].
    apply (chain_frame _ _ _ _ _ _ _ _ 0xf010ff58); [done|by vm_compute..|].
    apply (chain_frame _ _ _ _ _ _ _ _ 0); [done|by vm_compute..|].
    apply chain_root.
  - simpl. lia.
  - exists m'. split; [exact Hrun|]. split; [exact Hlen|exact Hmem].
Defined.

(** ** Bits of a page-table entry *)





(** ** The page-table editor *)

Section Editor.
Context `{K : Kernel}.

Lemma walk_at va create m pte mem' :
  pgdir_walk va create (memory m) = (pte, mem') ->
  walk va create m = Ret pte (set_memory mem' m).
Proof. unfold walk. by intros ->. Qed.

Lemma myprint_at pte e m :
  memory m !! pte = Some e -> myprint pte m = Ret tt (emit (printed e) m).
Proof. intros H. unfold myprint, bind. by rewrite (load_at _ _ _ H). Qed.

(** The selectors [setm] accepts and the constants they stand for. *)
Lemma select_perm_valid sel perm :
  select_perm sel = Some perm <->
  (sel = "P"%char /\ perm = PTE_P) \/ (sel = "W"%char /\ perm = PTE_W) \/
  (sel = "U"%char /\ perm = PTE_U).
Proof.
  unfold select_perm. repeat case_bool_decide; subst; split; intros Hs;
    try (injection Hs as <-); try discriminate; auto;
    destruct Hs as [[? ->]|[[? ->]|[? ->]]]; congruence.
Qed.



(** C7. With four arguments and a selector that is none of [P], [W],
    [U], [setm] prints the entry, then the usage message, and returns 0;
    it writes nothing: the memory is as the lookup left it and the entry
    holds the value that was printed. *)
Theorem setm_bad_selector (a0 a1 a2 a3 : nat) (tf : Z) (m m1 : machine)
    (addr pte e : Z) (mem' : gmap Z Z) (sel : ascii) :
  xtoi a1 m = Ret addr m1 ->
  pgdir_walk addr 1 (memory m1) = (pte, mem') ->
  mem' !! pte = Some e ->
  linebuf m1 !! a3 = Some sel ->
  sel <> "P"%char -> sel <> "W"%char -> sel <> "U"%char ->
  exists m',
    setm 4 [a0; a1; a2; a3] tf m = Ret 0 m' /\
    console m' = console m1 ++ [before_setperm addr; printed e; usage_setm] /\
    memory m' = mem' /\
    memory m' !! pte = Some e /\
    (mem' = memory m -> memory m' = memory m).
Proof.
  intros Hx Hw He Hsel HP HW HU. unfold setm. simpl. unfold bind at 1.
  unfold argv_at at 1. simpl. unfold bind at 1. rewrite Hx.
  unfold bind at 1. rewrite (walk_at _ _ _ _ _ Hw).
  unfold bind at 1. cbn [cprintf]. unfold bind at 1.
  rewrite (myprint_at pte e) by done.
  unfold bind at 1. unfold argv_at at 1. simpl.
  unfold bind at 1. unfold peek at 1. simpl. rewrite Hsel.
  unfold select_perm. rewrite !bool_decide_eq_false_2 by done.
  eexists. split; [reflexivity|]. unfold emit, set_memory. simpl.
  rewrite <- !app_assoc. done.
Qed.

(** In [showmappings] a null result of the lookup ends in [panic]. *)
Lemma showmappings_null_panics (fuel : nat) (begin end' : Z) (m : machine)
    (mem' : gmap Z Z) :
  begin <= end' ->
  pgdir_walk begin 1 (memory m) = (0, mem') ->
  showmappings_loop (S fuel) begin end' m
  = Panic "out of memory" (set_memory mem' m).
Proof.
  intros Hle Hw. cbn [showmappings_loop].
  rewrite (proj2 (Z.leb_le _ _) Hle). unfold showmappings_body, bind.
  by rewrite (walk_at _ _ _ _ _ Hw).
Qed.

(** C1. In [setm] the result of the lookup is not tested. On a null result
    [myprint] reads through the null pointer; there is no call of
    [panic] on the way, whatever is mapped at address 0. *)
Theorem setm_null_lookup_no_panic (a0 a1 a2 a3 : nat) (tf : Z)
    (m m1 : machine) (addr : Z) (mem' : gmap Z Z) :
  xtoi a1 m = Ret addr m1 ->
  pgdir_walk addr 1 (memory m1) = (0, mem') ->
  (forall msg m', setm 4 [a0; a1; a2; a3] tf m <> Panic msg m') /\
  (mem' !! 0 = None ->
   setm 4 [a0; a1; a2; a3] tf m
   = Fault (emit (before_setperm addr) (set_memory mem' m1))).
Proof.
  intros Hx Hw.
  assert (Hgo : setm 4 [a0; a1; a2; a3] tf m
                = (myprint 0 ;;;
                   a3' <- argv_at [a0; a1; a2; a3] 3 ;;
                   sel <- peek a3' ;;
                   match select_perm sel with
                   | None => cprintf "Usage: setm 0xaddr [clear(0)|set(1)] [P|W|U]\n" [] ;;; ret 0
                   | Some perm =>
                       a2' <- argv_at [a0; a1; a2; a3] 2 ;;
                       flag <- peek a2' ;;
                       e <- load 0 ;;
                       (if bool_decide (flag = "0"%char)
                        then store 0 (Z.land e (not32 perm))
                        else store 0 (Z.lor e perm)) ;;;
                       cprintf "%x after setperm: " [AInt addr] ;;;
                       myprint 0 ;;;
                       ret 0
                   end)
                    (emit (before_setperm addr) (set_memory mem' m1))).
  { unfold setm. simpl. unfold bind at 1.
    unfold argv_at at 1. simpl. unfold bind at 1. rewrite Hx.
    unfold bind at 1. rewrite (walk_at _ _ _ _ _ Hw).
    unfold bind at 1. by cbn [cprintf]. }
  rewrite Hgo. clear Hgo.
  set (m2 := emit (before_setperm addr) (set_memory mem' m1)).
  split.
  - intros msg m'. unfold bind at 1. unfold myprint at 1. unfold bind at 1.
    unfold load at 1. destruct (memory m2 !! 0) as [e|]; [|done].
    cbn [cprintf]. unfold bind at 1. unfold argv_at at 1. simpl.
    unfold bind at 1. unfold peek at 1.
    destruct (linebuf _ !! a3) as [sel|]; [|done].
    destruct (select_perm sel) as [perm|]; [|done].
    unfold bind at 1. unfold argv_at at 1. simpl.
    unfold bind at 1. unfold peek at 1.
    destruct (linebuf _ !! a2) as [flag|]; [|done].
    unfold bind at 1. unfold load at 1.
    destruct (memory _ !! 0) as [e1|]; [|done].
    unfold bind at 1.
    assert (Hst : forall v mx, exists r, store 0 v mx = r /\
              (r = Fault mx \/
               r = Ret tt (set_memory (<[0 := v]> (memory mx)) mx))).
    { intros v mx. unfold store. destruct (memory mx !! 0); eauto. }
    destruct (bool_decide (flag = "0"%char));
      match goal with |- context [store 0 ?v ?mx] =>
        destruct (Hst v mx) as (r & -> & [->| ->]) end; try done;
      unfold bind at 1; cbn [cprintf]; unfold bind at 1;
      unfold myprint, bind, load;
      match goal with |- context [memory ?mx !! 0] =>
        destruct (memory mx !! 0) end; done.
  - intros Hnone. unfold bind, myprint, bind, load. simpl. by rewrite Hnone.
Qed.

End Editor.


Lemma setm_bad_selector_witness :
  exists m',
    setm (K := i386 flat_walk) 4 [0; 8; 15; 17]%nat 0
      (tokenized ["setperm"; "0x1000"; "0"; "X"] sample_table) = Ret 0 m' /\
    memory m' = sample_table /\
    memory m' !! 0xf0400004 = Some 0x1007.
Proof.
  pose (m := tokenized ["setperm"; "0x1000"; "0"; "X"] sample_table).
  destruct (setm_bad_selector (K := i386 flat_walk) 0 8 15 17 0 m m
              0x1000 0xf0400004 0x1007 sample_table "X")
    as (m' & Hrun & _ & Hmem & Hpte & _).
  - by vm_compute.
  - reflexivity.
  - by vm_compute.
  - reflexivity.
  - discriminate.
  - discriminate.
  - discriminate.
  - exists m'. split; [exact Hrun|]. split; [exact Hmem|exact Hpte].
Defined.

Lemma setm_null_lookup_no_panic_witness :
  let m := tokenized ["setperm"; "0x1000"; "0"; "W"] sample_table in
  setm (K := i386 null_walk) 4 [0; 8; 15; 17]%nat 0 m
  = Fault (emit (Cprintf "%x before setperm: " [AInt 0x1000]) m) /\
  showmappings_loop (K := i386 null_walk) 1 0x1000 0x1000 m
  = Panic "out of memory" m.
Proof.
  intros m. split.
  - destruct (setm_null_lookup_no_panic (K := i386 null_walk) 0 8 15 17 0
                m m 0x1000 sample_table) as [_ Hfault].
    + by vm_compute.
    + reflexivity.
    + apply Hfault. by vm_compute.
  - apply (showmappings_null_panics (K := i386 null_walk) 0 0x1000 0x1000 m
             sample_table); [lia|reflexivity].
Defined.

(** ** Statuses *)

Lemma returns0_ret : returns0 (ret 0).
Proof. intros m r m' [= <- _]. done. Qed.

Lemma returns0_bind {A} (c : M A) (k : A -> M Z) :
  (forall a, returns0 (k a)) -> returns0 (bind c k).
Proof.
  intros Hk m r m'. unfold bind. destruct (c m) as [a m1| | | |]; try done.
  apply Hk.
Qed.

Lemma returns0_if (b : bool) (c1 c2 : M Z) :
  returns0 c1 -> returns0 c2 -> returns0 (if b then c1 else c2).
Proof. by destruct b. Qed.

Create HintDb returns0.
#[local] Hint Resolve returns0_ret returns0_bind returns0_if : returns0.

Ltac returns0 :=
  repeat first
    [ apply returns0_ret
    | apply returns0_bind; intros
    | apply returns0_if
    | match goal with
      | |- returns0 (match ?x with _ => _ end) => destruct x
      end ].

Section Statuses.
Context `{K : Kernel}.

Lemma mon_help_returns0 argc argv tf : returns0 (mon_help argc argv tf).
Proof. unfold mon_help. auto with returns0. Qed.

Lemma mon_kerninfo_returns0 argc argv tf :
  returns0 (mon_kerninfo argc argv tf).
Proof. unfold mon_kerninfo. auto 10 with returns0. Qed.

Lemma mon_backtrace_returns0 fuel argc argv tf :
  returns0 (mon_backtrace fuel argc argv tf).
Proof. unfold mon_backtrace. auto with returns0. Qed.

Lemma showmappings_returns0 fuel argc argv tf :
  returns0 (showmappings fuel argc argv tf).
Proof. unfold showmappings. returns0. Qed.

Lemma setm_returns0 argc argv tf : returns0 (setm argc argv tf).
Proof. unfold setm. returns0. Qed.

Lemma showvm_returns0 fuel argc argv tf :
  returns0 (showvm fuel argc argv tf).
Proof. unfold showvm. returns0. Qed.

Lemma call_returns0 fuel f argc argv tf :
  returns0 (call fuel f argc argv tf).
Proof.
  destruct f; simpl;
    auto using mon_help_returns0, mon_kerninfo_returns0,
      mon_backtrace_returns0, showmappings_returns0, setm_returns0,
      showvm_returns0.
Qed.

Lemma lookup_cmd_returns0 {F} (call : F -> handler) cmds argc argv tf :
  (forall f argc argv tf, returns0 (call f argc argv tf)) ->
  returns0 (lookup_cmd call cmds argc argv tf).
Proof.
  intros Hcall. induction cmds as [|c cmds IH]; simpl; returns0.
  - apply Hcall.
  - apply IH.
Qed.

Lemma runcmd_in_returns0 {F} (call : F -> handler) cmds buf tf :
  (forall f argc argv tf, returns0 (call f argc argv tf)) ->
  returns0 (runcmd_in call cmds buf tf).
Proof.
  intros Hcall. unfold runcmd_in. returns0.
  by apply lookup_cmd_returns0.
Qed.

Lemma monitor_loop_no_exit fuel rounds : forall input tf m u m',
  monitor_loop fuel rounds input tf m <> Ret u m'.
Proof.
  induction rounds as [|rounds IH]; intros input tf m u m'; [done|].
  cbn [monitor_loop]. unfold bind at 1.
  destruct input as [|[l|] rest]; simpl; [done| |apply IH].
  unfold bind.
  destruct (runcmd fuel 0 tf _) as [s m1| | | |] eqn:Hrun; try done.
  apply (runcmd_in_returns0 _ _ _ _ (call_returns0 fuel)) in Hrun as ->.
  apply IH.
Qed.

(** C8. Every function of the command table returns 0 whenever it
    returns; so does [runcmd], whose result is therefore never negative;
    and [monitor] never leaves its loop: whatever the operator types, it
    does not return. *)
Theorem monitor_never_exits :
  (forall c fuel argc argv tf m r m',
     c ∈ commands ->
     call fuel (func c) argc argv tf m = Ret r m' -> r = 0) /\
  (forall fuel buf tf m r m',
     runcmd fuel buf tf m = Ret r m' -> r = 0 /\ ~ r < 0) /\
  (forall fuel input tf m u m',
     monitor fuel input tf m <> Ret u m').
Proof.
  split; [|split].
  - intros c fuel argc argv tf m r m' _. apply call_returns0.
  - intros fuel buf tf m r m' Hrun.
    apply (runcmd_in_returns0 _ _ _ _ (call_returns0 fuel)) in Hrun as ->.
    lia.
  - intros fuel input tf m u m'. unfold monitor, bind. cbn [cprintf].
    destruct (negb (tf =? 0)); apply monitor_loop_no_exit.
Qed.

End Statuses.

Lemma monitor_never_exits_witness :
  let m := boot "" sample_table in
  (exists m', runcmd (K := i386 flat_walk) 8 0 0 (boot "kerninfo" ∅)
              = Ret 0 m') /\
  (exists m',
     monitor (K := i386 flat_walk) 8
       [Some (chars "help" ++ [NUL]);
        Some (chars "setperm 0x1000 0 W" ++ [NUL]);
        Some (chars "showmp 0x1000 0x1000" ++ [NUL]);
        Some (chars "quit" ++ [NUL]);
        Some (chars "exit" ++ [NUL])] 0 m = Blocked m' /\
     memory m' !! 0xf0400004 = Some 0x1005).
Proof.
  intros m. split.
  - destruct (runcmd (K := i386 flat_walk) 8 0 0 (boot "kerninfo" ∅))
      as [r m'| | | |] eqn:Hrun; try (vm_compute in Hrun; discriminate).
    exists m'.
    destruct (proj1 (proj2 (monitor_never_exits (K := i386 flat_walk)))
                8%nat 0%nat 0 _ r m' Hrun) as [-> _].
    reflexivity.
  - eexists. split; vm_compute; reflexivity.
Defined.

(** ** The range loop of [showmappings] *)

Section RangeLoop.
Context `{K : Kernel}.

(** One round never runs out of steps: it has no loop of its own. *)
Lemma showmappings_body_no_timeout begin m :
  showmappings_body begin m <> Timeout.
Proof.
  unfold showmappings_body, bind, walk.
  destruct (pgdir_walk begin 1 (memory m)) as [pte mem'].
  destruct (pte =? 0); [done|]. unfold ret, load. simpl.
  destruct (mem' !! pte) as [e|] eqn:He; [|done].
  destruct (negb (Z.land e PTE_P =? 0)); [|done].
  cbn [cprintf]. unfold myprint, bind, load. simpl. by rewrite He.
Qed.

Lemma mod_add_page b : (b + PGSIZE) mod PGSIZE = b mod PGSIZE.
Proof.
  replace (b + PGSIZE) with (b + 1 * PGSIZE) by lia. apply Z_mod_plus_full.
Qed.

Lemma page_fits q : 0 < PGSIZE -> 2 ^ 32 = q * PGSIZE -> PGSIZE <= 2 ^ 32.
Proof.
  intros HP Hq.
  assert (0 < q).
  { destruct (Z_lt_le_dec 0 q); [done|].
    assert (q * PGSIZE <= 0) by (apply Z.mul_nonpos_nonneg; lia). lia. }
  rewrite Hq. replace PGSIZE with (1 * PGSIZE) at 1 by lia.
  apply Z.mul_le_mono_nonneg_r; lia.
Qed.

(** As long as no counter value reached from [begin] wraps around, the
    distance to [end'] bounds the number of rounds. *)
Lemma showmappings_loop_ends end' n : forall begin fuel m,
  0 < PGSIZE ->
  0 <= begin ->
  (forall b, begin <= b <= end' -> b mod PGSIZE = begin mod PGSIZE ->
             b + PGSIZE < 2 ^ 32) ->
  (Z.to_nat (end' + 1 - begin) <= n)%nat ->
  (n < fuel)%nat ->
  showmappings_loop fuel begin end' m <> Timeout.
Proof.
  induction n as [|n IH]; intros begin fuel m HP Hb Hnowrap Hn Hfuel;
    (destruct fuel as [|fuel]; [lia|]); cbn [showmappings_loop].
  - by rewrite (proj2 (Z.leb_gt _ _)) by lia.
  - destruct (begin <=? end') eqn:Hle; [|done]. apply Z.leb_le in Hle.
    unfold bind.
    destruct (showmappings_body begin m) as [[] m1| | | |] eqn:Hbody;
      try done; [|by apply showmappings_body_no_timeout in Hbody].
    assert (Hstep : u32 (begin + PGSIZE) = begin + PGSIZE).
    { unfold u32. apply Z.mod_small.
      specialize (Hnowrap begin). lia. }
    rewrite Hstep. apply IH; try lia.
    intros b Hb' Hmod. apply Hnowrap; [lia|].
    rewrite Hmod. apply mod_add_page.
Qed.

(** When [end'] lies in the last page and [begin] does not come behind
    it within its page, the counter stays at or below [end'] across the
    wrap-around. *)
Lemma wrap_keeps_below q begin end' :
  0 < PGSIZE -> 2 ^ 32 = q * PGSIZE ->
  0 <= begin <= end' -> 2 ^ 32 - PGSIZE <= end' < 2 ^ 32 ->
  begin mod PGSIZE <= end' mod PGSIZE ->
  0 <= u32 (begin + PGSIZE) <= end' /\
  u32 (begin + PGSIZE) mod PGSIZE <= end' mod PGSIZE.
Proof.
  intros HP Hq Hb He Hmod. unfold u32.
  assert (HPle : PGSIZE <= 2 ^ 32) by (by apply (page_fits q)).
  assert (Hend : end' mod PGSIZE = end' - (2 ^ 32 - PGSIZE)).
  { replace end' with (end' - (2 ^ 32 - PGSIZE) + (q - 1) * PGSIZE) at 1
      by lia.
    rewrite Z_mod_plus_full. apply Z.mod_small. lia. }
  destruct (Z_lt_le_dec (begin + PGSIZE) (2 ^ 32)) as [Hlow|Hhigh].
  - rewrite Z.mod_small by lia.
    assert (Hsame : (begin + PGSIZE) mod PGSIZE = begin mod PGSIZE).
      by apply mod_add_page.
    rewrite Hsame. split; [|done]. split; [lia|].
    destruct (Z_le_gt_dec (begin + PGSIZE) end') as [|Hgt]; [done|].
    exfalso.
    assert (Hres : (begin + PGSIZE) mod PGSIZE
                   = begin + PGSIZE - (2 ^ 32 - PGSIZE)).
    { replace (begin + PGSIZE)
        with (begin + PGSIZE - (2 ^ 32 - PGSIZE) + (q - 1) * PGSIZE) at 1
        by lia.
      rewrite Z_mod_plus_full. apply Z.mod_small. lia. }
    lia.
  - assert (Hwrap : (begin + PGSIZE) mod 2 ^ 32 = begin + PGSIZE - 2 ^ 32).
    { replace (begin + PGSIZE)
        with (begin + PGSIZE - 2 ^ 32 + 1 * 2 ^ 32) at 1 by lia.
      rewrite Z_mod_plus_full. apply Z.mod_small. lia. }
    rewrite Hwrap.
    assert (Hsame : (begin + PGSIZE - 2 ^ 32) mod PGSIZE = begin mod PGSIZE).
    { replace (begin + PGSIZE - 2 ^ 32) with (begin + (1 - q) * PGSIZE)
        by lia.
      apply Z_mod_plus_full. }
    rewrite Hsame. split; [|done].
    assert (Hsmall : (begin + PGSIZE - 2 ^ 32) mod PGSIZE
                     = begin + PGSIZE - 2 ^ 32)
      by (apply Z.mod_small; lia).
    lia.
Qed.

Lemma showmappings_loop_wraps q end' fuel : forall begin m,
  0 < PGSIZE -> 2 ^ 32 = q * PGSIZE ->
  0 <= begin <= end' -> 2 ^ 32 - PGSIZE <= end' < 2 ^ 32 ->
  begin mod PGSIZE <= end' mod PGSIZE ->
  (forall m', showmappings_loop fuel begin end' m <> Ret tt m') /\
  ((forall b m1, 0 <= b < 2 ^ 32 ->
      exists m2, showmappings_body b m1 = Ret tt m2) ->
   showmappings_loop fuel begin end' m = Timeout).
Proof.
  induction fuel as [|fuel IH]; intros begin m HP Hq Hb He Hmod; [done|].
  cbn [showmappings_loop]. rewrite (proj2 (Z.leb_le _ _)) by lia.
  destruct (wrap_keeps_below q begin end') as [Hb' Hmod']; try done.
  unfold bind. split.
  - intros m'.
    destruct (showmappings_body begin m) as [[] m1| | | |]; try done.
    by apply IH.
  - intros Hbody. destruct (Hbody begin m) as [m2 ->]; [lia|].
    by apply IH.
Qed.

(** C9 (amended). The loop ends whenever [end' < 2^32 - PGSIZE]. When
    [end'] is in the last page, [begin <= end'] and the offset of [begin]
    in its page is at most that of [end'] (both page-aligned, say), the
    counter wraps around to a value that is again at most [end']: the
    loop never returns, and it runs for ever unless a lookup fails. *)
Theorem showmappings_loop_termination (q begin end' : Z) :
  0 < PGSIZE -> 2 ^ 32 = q * PGSIZE ->
  0 <= begin < 2 ^ 32 -> 0 <= end' < 2 ^ 32 ->
  (end' < 2 ^ 32 - PGSIZE ->
   forall fuel m,
     (Z.to_nat (end' + 1 - begin) < fuel)%nat ->
     showmappings_loop fuel begin end' m <> Timeout) /\
  (2 ^ 32 - PGSIZE <= end' -> begin <= end' ->
   begin mod PGSIZE <= end' mod PGSIZE ->
   0 <= u32 (begin + PGSIZE) <= end' /\
   forall fuel m,
     (forall m', showmappings_loop fuel begin end' m <> Ret tt m') /\
     ((forall b m1, 0 <= b < 2 ^ 32 ->
         exists m2, showmappings_body b m1 = Ret tt m2) ->
      showmappings_loop fuel begin end' m = Timeout)).
Proof.
  intros HP Hq Hb He. split.
  - intros Hlow fuel m Hfuel.
    apply (showmappings_loop_ends end' (Z.to_nat (end' + 1 - begin)));
      try lia.
  - intros Hhigh Hle Hmod. split.
    + apply (wrap_keeps_below q begin end'); lia.
    + intros fuel m. apply (showmappings_loop_wraps q); lia.
Qed.

(** With [end'] in the last page the loop still ends when [begin] comes
    behind [end'] within its page. *)
Lemma showmappings_loop_ends_last_page (q begin end' : Z) (fuel : nat)
    (m : machine) :
  0 < PGSIZE -> 2 ^ 32 = q * PGSIZE ->
  0 <= begin < 2 ^ 32 -> 2 ^ 32 - PGSIZE <= end' < 2 ^ 32 ->
  end' mod PGSIZE < begin mod PGSIZE ->
  (Z.to_nat (end' + 1 - begin) < fuel)%nat ->
  showmappings_loop fuel begin end' m <> Timeout.
Proof.
  intros HP Hq Hb He Hmod Hfuel.
  apply (showmappings_loop_ends end' (Z.to_nat (end' + 1 - begin)));
    try lia.
  intros b Hrange Hsame.
  destruct (Z_lt_le_dec (b + PGSIZE) (2 ^ 32)) as [|Hhigh]; [done|].
  exfalso.
  assert (Hend : end' mod PGSIZE = end' - (2 ^ 32 - PGSIZE)).
  { replace end' with (end' - (2 ^ 32 - PGSIZE) + (q - 1) * PGSIZE) at 1
      by lia.
    rewrite Z_mod_plus_full. apply Z.mod_small. lia. }
  assert (Hres : b mod PGSIZE = b - (2 ^ 32 - PGSIZE)).
  { replace b with (b - (2 ^ 32 - PGSIZE) + (q - 1) * PGSIZE) at 1 by lia.
    rewrite Z_mod_plus_full. apply Z.mod_small. lia. }
  lia.
Qed.

End RangeLoop.

(** With [alloc_walk] every round of the loop goes through. *)
Lemma alloc_walk_body_returns b m1 :
  0 <= b < 2 ^ 32 ->
  exists m2, showmappings_body (K := i386 alloc_walk) b m1 = Ret tt m2.
Proof.
  intros Hb. unfold showmappings_body, bind, walk. simpl.
  unfold alloc_walk.
  set (pte := 4030726144 + 4 * (b / 4096)).
  assert (Hpte : (pte =? 0) = false).
  { apply Z.eqb_neq. unfold pte.
    assert (0 <= b / 4096) by (apply Z.div_pos; lia). lia. }
  rewrite Hpte. unfold ret, load. simpl.
  destruct (memory m1 !! pte) as [e|] eqn:He.
  - rewrite He. destruct (negb (Z.land e 1 =? 0)); [|by eexists].
    unfold bind. cbn [cprintf]. unfold myprint, bind, load. simpl.
    rewrite He. by eexists.
  - rewrite lookup_insert_eq. simpl. by eexists.
Qed.

Lemma showmappings_loop_termination_witness :
  (forall fuel m,
     (Z.to_nat (0x3000 + 1 - 0x1000) < fuel)%nat ->
     showmappings_loop (K := i386 alloc_walk) fuel 0x1000 0x3000 m
     <> Timeout) /\
  (forall fuel m,
     showmappings_loop (K := i386 alloc_walk) fuel 0 0xfffff000 m
     = Timeout).
Proof.
  split.
  - apply (showmappings_loop_termination (K := i386 alloc_walk)
             (2 ^ 20) 0x1000 0x3000); simpl; lia.
  - intros fuel m.
    destruct (showmappings_loop_termination (K := i386 alloc_walk)
                (2 ^ 20) 0 0xfffff000) as [_ Hwrap]; simpl; try lia.
    destruct Hwrap as [_ Hloop]; simpl; try lia.
    + by vm_compute.
    + apply (Hloop fuel m). intros b m1 Hb.
      by apply alloc_walk_body_returns.
Defined.

(** C9 as it was stated fails: [end'] is in the last page and
    [begin <= end'], yet the loop ends after one round, and so does the
    command. *)
Lemma showmappings_loop_wrap_counterexample :
  2 ^ 32 - PGSIZE (Kernel := i386 alloc_walk) <= 0xfffff000 /\
  0xffffe001 <= 0xfffff000 /\
  u32 (0xffffe001 + PGSIZE (Kernel := i386 alloc_walk)) = 0xfffff001 /\
  (exists m',
     showmappings_loop (K := i386 alloc_walk) 2 0xffffe001 0xfffff000
       (boot "" ∅) = Ret tt m') /\
  (exists m',
     runcmd (K := i386 alloc_walk) 2 0 0
       (boot "showmp 0xffffe001 0xfffff000" ∅) = Ret 0 m').
Proof.
  split; [simpl; lia|]. split; [lia|]. split; [reflexivity|].
  split; eexists; vm_compute; reflexivity.
Qed.

(** * Further properties *)

(** ** What the commands leave alone *)

Section Frame.
Context `{K : Kernel}.
Variable R : machine -> machine -> Prop.
Hypothesis R_refl : forall m, R m m.
Hypothesis R_trans : forall m1 m2 m3, R m1 m2 -> R m2 m3 -> R m1 m3.
Hypothesis R_emit : forall fmt args m, R m (emit (Cprintf fmt args) m).
Hypothesis R_poke : forall p c m, R m (set_linebuf (<[p := c]> (linebuf m)) m).

Lemma ends_in_ret {A} (a : A) : ends_in R (ret a).
Proof. intros m. apply R_refl. Qed.

Lemma ends_in_bind {A B} (c : M A) (k : A -> M B) :
  ends_in R c -> (forall a, ends_in R (k a)) -> ends_in R (bind c k).
Proof.
  intros Hc Hk m. unfold bind. specialize (Hc m).
  destruct (c m) as [a m1| | | |]; try done.
  specialize (Hk a m1). destruct (k a m1); try done; by eapply R_trans.
Qed.

Lemma ends_in_if {A} (b : bool) (c1 c2 : M A) :
  ends_in R c1 -> ends_in R c2 -> ends_in R (if b then c1 else c2).
Proof. by destruct b. Qed.

Lemma ends_in_timeout {A} : ends_in R (@timeout A).
Proof. done. Qed.

Lemma ends_in_panic {A} msg : ends_in R (@panic A msg).
Proof. intros m. apply R_refl. Qed.

Lemma ends_in_cprintf fmt args : ends_in R (cprintf fmt args).
Proof. intros m. apply R_emit. Qed.

Lemma ends_in_load a : ends_in R (load a).
Proof. intros m. unfold load. destruct (memory m !! a); apply R_refl. Qed.

Lemma ends_in_peek p : ends_in R (peek p).
Proof. intros m. unfold peek. destruct (linebuf m !! p); apply R_refl. Qed.

Lemma ends_in_poke p c : ends_in R (poke p c).
Proof.
  intros m. unfold poke. destruct (linebuf m !! p); [apply R_poke|apply R_refl].
Qed.

Lemma ends_in_argv_at argv i : ends_in R (argv_at argv i).
Proof. intros m. unfold argv_at. destruct (argv !! i); apply R_refl. Qed.

Lemma ends_in_read_cstr p : ends_in R (read_cstr p).
Proof.
  intros m. unfold read_cstr. destruct (cstr (linebuf m) p); apply R_refl.
Qed.

Ltac frame_step :=
  first
    [ apply ends_in_ret | apply ends_in_timeout | apply ends_in_panic
    | apply ends_in_cprintf | apply ends_in_load | apply ends_in_peek
    | apply ends_in_poke | apply ends_in_argv_at | apply ends_in_read_cstr
    | apply ends_in_bind; [|intros]
    | apply ends_in_if
    | match goal with
      | |- ends_in _ (match ?x with _ => _ end) => destruct x
      end ].

Lemma ends_in_xtoi_loop fuel : forall buf res, ends_in R (xtoi_loop fuel buf res).
Proof.
  induction fuel as [|fuel IH]; intros buf res; cbn [xtoi_loop];
    repeat frame_step.
  apply IH.
Qed.

Lemma ends_in_xtoi buf : ends_in R (xtoi buf).
Proof. intros m. apply (ends_in_xtoi_loop (S (length (linebuf m)))). Qed.

Lemma ends_in_mon_help_loop {F} (cmds : list (Command F)) :
  ends_in R (mon_help_loop cmds).
Proof. induction cmds as [|c cmds IH]; simpl; repeat frame_step. apply IH. Qed.

Lemma ends_in_mon_help argc argv tf : ends_in R (mon_help argc argv tf).
Proof.
  unfold mon_help. apply ends_in_bind; [apply ends_in_mon_help_loop|].
  intros. apply ends_in_ret.
Qed.

Lemma ends_in_mon_kerninfo argc argv tf :
  ends_in R (mon_kerninfo argc argv tf).
Proof. unfold mon_kerninfo. repeat frame_step. Qed.

Lemma ends_in_backtrace_loop fuel : forall p, ends_in R (backtrace_loop fuel p).
Proof.
  induction fuel as [|fuel IH]; intros p; cbn [backtrace_loop];
    repeat frame_step.
  apply IH.
Qed.

Lemma ends_in_mon_backtrace fuel argc argv tf :
  ends_in R (mon_backtrace fuel argc argv tf).
Proof.
  unfold mon_backtrace. repeat frame_step.
  intros m. apply ends_in_backtrace_loop.
Qed.

Lemma ends_in_showvm_loop fuel : forall addr i n,
  ends_in R (showvm_loop fuel addr i n).
Proof.
  induction fuel as [|fuel IH]; intros addr i n; cbn [showvm_loop];
    repeat frame_step.
  apply IH.
Qed.

Lemma ends_in_showvm fuel argc argv tf : ends_in R (showvm fuel argc argv tf).
Proof.
  unfold showvm. repeat frame_step;
    first [apply ends_in_xtoi | apply ends_in_showvm_loop].
Qed.

Lemma ends_in_gobble fuel : forall buf, ends_in R (gobble fuel buf).
Proof.
  induction fuel as [|fuel IH]; intros buf; cbn [gobble]; repeat frame_step.
  apply IH.
Qed.

Lemma ends_in_scan_arg fuel : forall buf, ends_in R (scan_arg fuel buf).
Proof.
  induction fuel as [|fuel IH]; intros buf; cbn [scan_arg]; repeat frame_step.
  apply IH.
Qed.

Lemma ends_in_parse_args fuel : forall buf argv,
  ends_in R (parse_args fuel buf argv).
Proof.
  induction fuel as [|fuel IH]; intros buf argv; cbn [parse_args];
    repeat frame_step;
    first [ intros m; apply (ends_in_gobble (S (length (linebuf m))))
          | intros m; apply (ends_in_scan_arg (S (length (linebuf m))))
          | apply IH ].
Qed.

Lemma ends_in_strcmp q : forall p, ends_in R (strcmp p q).
Proof.
  induction q as [|d q IH]; intros p; simpl; repeat frame_step. apply IH.
Qed.

Lemma ends_in_lookup_cmd {F} (call : F -> handler) cmds argc argv tf :
  (forall f argc argv tf, ends_in R (call f argc argv tf)) ->
  ends_in R (lookup_cmd call cmds argc argv tf).
Proof.
  intros Hcall. induction cmds as [|c cmds IH]; simpl; repeat frame_step;
    first [apply ends_in_strcmp | apply Hcall | apply IH].
Qed.

Lemma ends_in_runcmd_in {F} (call : F -> handler) cmds buf tf :
  (forall f argc argv tf, ends_in R (call f argc argv tf)) ->
  ends_in R (runcmd_in call cmds buf tf).
Proof.
  intros Hcall. unfold runcmd_in. repeat frame_step;
    first [ intros m; apply (ends_in_parse_args (S (length (linebuf m))))
          | by apply ends_in_lookup_cmd ].
Qed.

(** The commands that write memory or ask for a lookup need more of
    [R]. *)
Hypothesis R_memory : forall mem m, R m (set_memory mem m).

Lemma ends_in_store a v : ends_in R (store a v).
Proof.
  intros m. unfold store. destruct (memory m !! a); [apply R_memory|apply R_refl].
Qed.

Lemma ends_in_walk va create : ends_in R (walk va create).
Proof.
  intros m. unfold walk. destruct (pgdir_walk va create (memory m)).
  apply R_memory.
Qed.

Lemma ends_in_myprint pte : ends_in R (myprint pte).
Proof. unfold myprint. repeat frame_step. Qed.

Lemma ends_in_showmappings_loop fuel : forall begin end',
  ends_in R (showmappings_loop fuel begin end').
Proof.
  induction fuel as [|fuel IH]; intros begin end'; cbn [showmappings_loop];
    repeat frame_step; [|apply IH].
  unfold showmappings_body.
  repeat first [apply ends_in_walk | apply ends_in_myprint | frame_step].
Qed.

Lemma ends_in_showmappings fuel argc argv tf :
  ends_in R (showmappings fuel argc argv tf).
Proof.
  unfold showmappings. repeat frame_step;
    first [apply ends_in_xtoi | apply ends_in_showmappings_loop].
Qed.

Lemma ends_in_setm argc argv tf : ends_in R (setm argc argv tf).
Proof.
  unfold setm.
  repeat first [apply ends_in_xtoi | apply ends_in_walk | apply ends_in_myprint
               | apply ends_in_store | frame_step].
Qed.

Lemma ends_in_call fuel f argc argv tf : ends_in R (call fuel f argc argv tf).
Proof.
  destruct f; simpl;
    auto using ends_in_mon_help, ends_in_mon_kerninfo, ends_in_mon_backtrace,
      ends_in_showmappings, ends_in_setm, ends_in_showvm.
Qed.

Lemma ends_in_runcmd fuel buf tf : ends_in R (runcmd fuel buf tf).
Proof. apply ends_in_runcmd_in. intros. apply ends_in_call. Qed.

(** [monitor] also takes a new line buffer from [readline], which
    prints the prompt. *)
Hypothesis R_linebuf : forall l m, R m (set_linebuf l m).
Hypothesis R_prompt : forall p m, R m (emit (Prompt p) m).

Lemma ends_in_readline prompt input : ends_in R (readline prompt input).
Proof.
  intros m. unfold readline. destruct input as [|[l|] rest];
    try apply R_prompt.
  eapply R_trans; [apply R_prompt|apply R_linebuf].
Qed.

Lemma ends_in_monitor_loop fuel rounds : forall input tf,
  ends_in R (monitor_loop fuel rounds input tf).
Proof.
  induction rounds as [|rounds IH]; intros input tf; cbn [monitor_loop];
    [done|].
  apply ends_in_bind; [apply ends_in_readline|].
  intros [[buf|] rest]; [|apply IH].
  apply ends_in_bind; [apply ends_in_runcmd|].
  intros s. apply ends_in_if; [apply ends_in_ret|apply IH].
Qed.

End Frame.

Lemma only_console_refl m : only_console m m.
Proof. by split. Qed.

Lemma only_console_trans m1 m2 m3 :
  only_console m1 m2 -> only_console m2 m3 -> only_console m1 m3.
Proof.
  intros (Hm1 & Hl1 & He1 & Hc1) (Hm2 & Hl2 & He2 & Hc2).
  split; [congruence|]. split; [congruence|]. split; [congruence|].
  by etrans.
Qed.

Lemma only_console_emit fmt args m :
  only_console m (emit (Cprintf fmt args) m).
Proof. do 3 (split; [done|]). simpl. by apply prefix_app_r. Qed.

(** X1. [help], [kerninfo] and [backtrace] store nothing: however they
    end, the memory, the line buffer and the frame pointer are exactly
    as they were, and the console has only been added to. *)
Theorem printing_commands_write_nothing `{K : Kernel} (f : monfn)
    (fuel : nat) (argc : Z) (argv : list nat) (tf : Z) (m : machine) :
  f ∈ [fn_mon_help; fn_mon_kerninfo; fn_mon_backtrace] ->
  match call fuel f argc argv tf m with
  | Ret _ m' | Panic _ m' | Fault m' | Blocked m' =>
      memory m' = memory m /\ linebuf m' = linebuf m /\ ebp m' = ebp m /\
      console m `prefix_of` console m'
  | Timeout => True
  end.
Proof.
  intros Hf. revert m.
  change (ends_in only_console (call fuel f argc argv tf)).
  repeat (apply elem_of_cons in Hf as [->|Hf]); cbn [call].
  - apply ends_in_mon_help;
      first [ exact only_console_refl | exact only_console_trans
            | exact only_console_emit ].
  - apply ends_in_mon_kerninfo;
      first [ exact only_console_refl | exact only_console_trans
            | exact only_console_emit ].
  - apply ends_in_mon_backtrace;
      first [ exact only_console_refl | exact only_console_trans
            | exact only_console_emit ].
  - by apply elem_of_nil in Hf.
Qed.

Lemma printing_commands_write_nothing_witness :
  match call (K := i386 flat_walk) 8 fn_mon_backtrace 1 [0%nat] 0
          {| linebuf := chars "backtrace" ++ [NUL]; memory := sample_stack;
             console := []; ebp := 0xf010ff18 |} with
  | Ret _ m' | Panic _ m' | Fault m' | Blocked m' =>
      memory m' = sample_stack /\ linebuf m' = chars "backtrace" ++ [NUL] /\
      ebp m' = 0xf010ff18 /\ [] `prefix_of` console m'
  | Timeout => True
  end.
Proof.
  apply (printing_commands_write_nothing (K := i386 flat_walk)
           fn_mon_backtrace 8 1 [0%nat] 0
           {| linebuf := chars "backtrace" ++ [NUL]; memory := sample_stack;
              console := []; ebp := 0xf010ff18 |}).
  do 2 apply list_elem_of_further. apply list_elem_of_here.
Defined.

Lemma no_trapframe_since_refl m : no_trapframe_since m m.
Proof. exists []. by rewrite app_nil_r. Qed.

Lemma no_trapframe_since_trans m1 m2 m3 :
  no_trapframe_since m1 m2 -> no_trapframe_since m2 m3 ->
  no_trapframe_since m1 m3.
Proof.
  intros (r1 & Hc1 & Hr1) (r2 & Hc2 & Hr2). exists (r1 ++ r2).
  split; [by rewrite Hc2, Hc1, <- app_assoc|].
  by rewrite forallb_app, Hr1, Hr2.
Qed.

Lemma no_trapframe_since_emit e m :
  no_trapframe e = true -> no_trapframe_since m (emit e m).
Proof. intros He. exists [e]. split; [done|]. simpl. by rewrite He. Qed.

Lemma no_trapframe_since_same m m' :
  console m' = console m -> no_trapframe_since m m'.
Proof. intros Hc. exists []. by rewrite app_nil_r. Qed.

(** After the banner: prompts and the output of commands, no trap
    frame. *)
Lemma monitor_loop_no_trapframe `{K : Kernel} fuel rounds input tf :
  ends_in no_trapframe_since (monitor_loop fuel rounds input tf).
Proof.
  apply ends_in_monitor_loop;
    first [ exact no_trapframe_since_refl | exact no_trapframe_since_trans
          | intros; by apply no_trapframe_since_emit
          | intros; by apply no_trapframe_since_same ].
Qed.

(** X3. The console of a [monitor] session, however it ends, is what
    was there before, then the two banner lines, then the trap frame if
    [tf] is not null and nothing if it is, then the first prompt, then
    further prompts and the output of the commands: the trap frame is
    printed once if one was passed and never otherwise. *)
Theorem monitor_prints_banner `{K : Kernel} (fuel : nat)
    (input : list (option (list ascii))) (tf : Z) (m : machine) :
  match monitor fuel input tf m with
  | Ret _ m' | Panic _ m' | Fault m' | Blocked m' =>
      exists rest,
        console m' = console m ++ banner tf ++ Prompt "K> " :: rest /\
        forallb no_trapframe rest = true /\
        (tf = 0 -> forallb no_trapframe (banner tf) = true) /\
        (tf <> 0 ->
         banner tf = [Cprintf "Welcome to the JOS kernel monitor!\n" [];
                      Cprintf "Type 'help' for a list of commands.\n" [];
                      PrintTrapframe tf])
  | Timeout => True
  end.
Proof.
  assert (Hbanner :
            (tf = 0 -> forallb no_trapframe (banner tf) = true) /\
            (tf <> 0 ->
             banner tf = [Cprintf "Welcome to the JOS kernel monitor!\n" [];
                          Cprintf "Type 'help' for a list of commands.\n" [];
                          PrintTrapframe tf])).
  { unfold banner. split.
    - by intros ->.
    - intros Hne. by rewrite (proj2 (Z.eqb_neq _ _) Hne). }
  assert (Hstart : exists m0,
            console m0 = console m ++ banner tf /\
            monitor fuel input tf m
            = monitor_loop fuel (S (length input)) input tf m0).
  { unfold monitor, banner, bind. cbn [cprintf].
    destruct (tf =? 0); cbn [negb ret]; eexists; (split; [|reflexivity]);
      simpl; by rewrite <- !app_assoc. }
  destruct Hstart as (m0 & Hc0 & ->).
  cbn [monitor_loop]. unfold bind at 1.
  destruct input as [|[l|] rest]; cbn [readline].
  - exists []. simpl. by rewrite Hc0, <- app_assoc.
  - match goal with |- context [bind ?c ?k ?m1] =>
      assert (Hrest : ends_in no_trapframe_since (bind c k)) end.
    { apply ends_in_bind.
      - exact no_trapframe_since_trans.
      - apply ends_in_runcmd;
          first [ exact no_trapframe_since_refl
                | exact no_trapframe_since_trans
                | intros; by apply no_trapframe_since_emit
                | intros; by apply no_trapframe_since_same ].
      - intros s. destruct (s <? 0).
        + intros m1. apply no_trapframe_since_refl.
        + apply monitor_loop_no_trapframe. }
    match goal with |- context [bind ?c ?k ?m1] =>
      specialize (Hrest m1); destruct (bind c k m1) end; try done;
      destruct Hrest as (r & Hr & Hall); exists r;
      (split; [|by split]); rewrite Hr; simpl;
      by rewrite Hc0, <- !app_assoc.
  - pose proof (monitor_loop_no_trapframe fuel (length (None :: rest)) rest tf
                  (emit (Prompt "K> ") m0)) as Hrest.
    destruct (monitor_loop _ _ _ _ _); try done;
      destruct Hrest as (r & Hr & Hall); exists r;
      (split; [|by split]); rewrite Hr; simpl;
      by rewrite Hc0, <- !app_assoc.
Qed.

(** ** More on the hex parser *)

Lemma xtoi_step_hex res c d :
  hex_value c = Some d ->
  xtoi_step res c = u32 (res * 16 + d) /\ c <> NUL.
Proof.
  unfold xtoi_step. intros Hd.
  assert (Hval : schar (xtoi_char c) - schar "0" = d /\ c <> NUL).
  { revert Hd. destruct c as [[] [] [] [] [] [] [] []]; vm_compute;
      intros Hd; try discriminate Hd; injection Hd as <-; split; congruence. }
  destruct Hval as [<- Hc]. split; [|done]. f_equal. lia.
Qed.

Lemma fold_xtoi_step_hex ds :
  Forall (fun c => is_Some (hex_value c)) ds ->
  fold_left xtoi_step ds 0 = hex_number ds mod 2 ^ 32.
Proof.
  induction ds as [|c ds IH] using rev_ind; intros Hds.
  - done.
  - apply Forall_app in Hds as [Hds Hc].
    apply Forall_singleton in Hc as [d Hd].
    assert (Hsnoc : hex_number (ds ++ [c]) = hex_number ds * 16 + d).
    { unfold hex_number. rewrite fold_left_app. simpl. by rewrite Hd. }
    rewrite fold_left_app, Hsnoc. simpl. rewrite IH by done.
    destruct (xtoi_step_hex (hex_number ds mod 2 ^ 32) c d Hd) as [-> _].
    unfold u32.
    rewrite Z.add_mod, Z.mul_mod_idemp_l, <- Z.add_mod by lia. done.
Qed.

(** X4. On a token whose characters after the first two are lowercase
    hexadecimal digits, [xtoi] returns the number they denote modulo
    2^32: leading zeros are accepted, digits beyond eight push the high
    ones out, and the first two characters are skipped unread, whatever
    they are. *)
Theorem xtoi_reads_hex_mod_2_32 (m : machine) (pre post ds : list ascii)
    (c1 c2 : ascii) :
  Forall (fun c => is_Some (hex_value c)) ds ->
  linebuf m = pre ++ c1 :: c2 :: ds ++ NUL :: post ->
  exists m', xtoi (length pre) m = Ret (hex_number ds mod 2 ^ 32) m' /\
             memory m' = memory m /\ console m' = console m.
Proof.
  intros Hds Hb.
  assert (Hnul : NUL ∉ ds).
  { intros Hin. rewrite Forall_forall in Hds.
    destruct (Hds _ Hin) as [d Hd]. vm_compute in Hd. discriminate. }
  rewrite (xtoi_token pre c1 c2 ds post m Hnul Hb), fold_xtoi_step_hex by done.
  by eexists.
Qed.

Lemma xtoi_reads_hex_mod_2_32_witness :
  (exists m', xtoi 0 (boot "0x000ff" ∅) = Ret 255 m') /\
  (exists m', xtoi 0 (boot "zz123456789" ∅) = Ret 0x23456789 m').
Proof.
  split.
  - destruct (xtoi_reads_hex_mod_2_32 (boot "0x000ff" ∅) [] [] (chars "000ff")
                "0" "x") as (m' & Hx & _).
    + repeat constructor; by eexists.
    + reflexivity.
    + exists m'. exact Hx.
  - destruct (xtoi_reads_hex_mod_2_32 (boot "zz123456789" ∅) [] []
                (chars "123456789") "z" "z") as (m' & Hx & _).
    + repeat constructor; by eexists.
    + reflexivity.
    + exists m'. exact Hx.
Defined.

Lemma xtoi_char_twice c : xtoi_char (xtoi_char c) = xtoi_char c.
Proof. destruct c as [[] [] [] [] [] [] [] []]; vm_compute; reflexivity. Qed.

(** X5. A second [xtoi] on the same token returns the value of the
    first and changes nothing any more: the characters the first call
    wrote are read as the same digits and are below ['a']. *)
Theorem xtoi_second_call (m m1 : machine) (pre post ds : list ascii)
    (c1 c2 : ascii) (v : Z) :
  NUL ∉ ds ->
  linebuf m = pre ++ c1 :: c2 :: ds ++ NUL :: post ->
  xtoi (length pre) m = Ret v m1 ->
  xtoi (length pre) m1 = Ret v m1.
Proof.
  intros Hnul Hb Hx.
  rewrite (xtoi_token pre c1 c2 ds post m Hnul Hb) in Hx.
  injection Hx as <- <-.
  assert (Hnul' : NUL ∉ xtoi_char <$> ds).
  { intros Hin. apply list_elem_of_fmap in Hin as (c & Hc & Hin).
    apply (xtoi_char_not_nul c); [|done]. by intros ->. }
  rewrite (xtoi_token pre c1 c2 (xtoi_char <$> ds) post
             (set_linebuf (pre ++ c1 :: c2 :: (xtoi_char <$> ds)
                             ++ NUL :: post) m) Hnul') by done.
  f_equal.
  - clear. generalize 0. induction ds as [|c ds IH]; intros r; [done|].
    rewrite fmap_cons. simpl. rewrite <- IH. f_equal.
    unfold xtoi_step. by rewrite xtoi_char_twice.
  - rewrite set_linebuf_twice. f_equal. f_equal. f_equal. f_equal.
    rewrite <- list_fmap_compose. f_equal. apply list_fmap_ext.
    intros i c _. apply xtoi_char_twice.
Qed.

Lemma xtoi_second_call_witness :
  exists m1,
    xtoi 0 (boot "0xcafe" ∅) = Ret 0xcafe m1 /\
    linebuf m1 = chars "0x<:?>" ++ [NUL] /\
    xtoi 0 m1 = Ret 0xcafe m1.
Proof.
  eexists. split; [vm_compute; reflexivity|]. split; [reflexivity|].
  apply (xtoi_second_call (boot "0xcafe" ∅) _ [] [] (chars "cafe") "0" "x").
  - by_compute.
  - reflexivity.
  - vm_compute. reflexivity.
Defined.

(** ** More on the interpreter *)

Lemma blank_all_ws line :
  Forall (fun c => is_ws c = true) line ->
  blank <$> line = replicate (length line) NUL.
Proof.
  induction 1 as [|c line Hc _ IH]; [done|].
  rewrite fmap_cons, IH, (blank_true c Hc). done.
Qed.

(** X6. A line of whitespace only (or an empty one) is a no-op for every
    table: [runcmd] returns 0, prints nothing and calls nothing; the
    whitespace in the buffer has been overwritten by terminators. *)
Theorem runcmd_blank_line {F : Type} (call : F -> handler)
    (cmds : list (Command F)) (m : machine) (pre line post : list ascii)
    (tf : Z) :
  Forall (fun c => is_ws c = true) line ->
  linebuf m = pre ++ line ++ NUL :: post ->
  runcmd_in call cmds (length pre) tf m
  = Ret 0 (set_linebuf (pre ++ replicate (length line) NUL ++ NUL :: post) m).
Proof.
  intros Hws Hb.
  assert (Hnul : NUL ∉ line).
  { intros Hin. rewrite Forall_forall in Hws.
    by apply (is_ws_not_nul NUL (Hws _ Hin)). }
  assert (Htok : tokens line = []).
  { unfold tokens. rewrite <- (app_nil_r line). by rewrite words_ws. }
  destruct (runcmd_in_tokenized m pre line post tf Hnul Hb)
    as (argv & _ & Hargv & Hrun); [rewrite Htok; simpl; lia|].
  rewrite Htok in Hargv. apply Forall2_nil_inv_r in Hargv as ->.
  rewrite Hrun, blank_all_ws by done. done.
Qed.

Lemma runcmd_blank_line_witness :
  runcmd (K := i386 flat_walk) 8 0 0 (boot "  " sample_table)
  = Ret 0 {| linebuf := [NUL; NUL; NUL]; memory := sample_table;
             console := []; ebp := 0 |}.
Proof.
  apply (runcmd_blank_line (call (K := i386 flat_walk) 8) commands
           (boot "  " sample_table) [] (chars "  ") [] 0).
  - repeat constructor.
  - reflexivity.
Defined.

(** No entry of the table is named like the token: the scan runs to the
    end and reports the token. *)
Lemma lookup_cmd_none {F} (call : F -> handler) cmds : forall argc argv tf
    m a0 tok,
  argv !! 0%nat = Some a0 ->
  cstr (linebuf m) a0 = Some tok ->
  Forall (fun c => (NUL ∉ chars (name c)) /\ chars (name c) <> tok) cmds ->
  lookup_cmd call cmds argc argv tf m
  = Ret 0 (emit (Cprintf "Unknown command '%s'\n" [AStr tok]) m).
Proof.
  induction cmds as [|c cmds IH]; intros argc argv tf m a0 tok Ha0 Htok Hall;
    simpl; unfold bind, argv_at; rewrite Ha0.
  - unfold read_cstr. by rewrite Htok.
  - apply Forall_cons in Hall as [[Hnul Hne] Hall].
    destruct (strcmp_cstr (chars (name c)) a0 tok m Hnul Htok)
      as (r & -> & Hr).
    destruct (r =? 0) eqn:Hr0.
    + apply Z.eqb_eq, Hr in Hr0. congruence.
    + by apply (IH argc argv tf m a0 tok).
Qed.

(** X7. When no entry of the table is named like the first token,
    [runcmd] calls nothing, prints [Unknown command] with that token,
    and returns 0. *)
Theorem runcmd_unknown_command {F : Type} (call : F -> handler)
    (cmds : list (Command F)) (m : machine)
    (pre line post tok : list ascii) (rest : list (list ascii)) (tf : Z) :
  NUL ∉ line ->
  linebuf m = pre ++ line ++ NUL :: post ->
  tokens line = tok :: rest ->
  (length rest < 15)%nat ->
  Forall (fun c => (NUL ∉ chars (name c)) /\ chars (name c) <> tok) cmds ->
  runcmd_in call cmds (length pre) tf m
  = Ret 0 (emit (Cprintf "Unknown command '%s'\n" [AStr tok])
             (set_linebuf (pre ++ (blank <$> line) ++ NUL :: post) m)).
Proof.
  intros Hnul Hb Htok Hlen Hall.
  destruct (runcmd_in_tokenized m pre line post tf Hnul Hb)
    as (argv & _ & Hargv & Hrun); [rewrite Htok; simpl; lia|].
  rewrite Htok in Hargv. rewrite Hrun.
  apply Forall2_cons_inv_r in Hargv as (a0 & argv' & Ha0 & _ & ->).
  rewrite decide_False by done.
  by apply (lookup_cmd_none call cmds _ _ tf _ a0 tok).
Qed.

Lemma runcmd_unknown_command_witness :
  runcmd (K := i386 flat_walk) 8 0 0 (boot "exit now" ∅)
  = Ret 0 {| linebuf := chars "exit" ++ NUL :: chars "now" ++ [NUL];
             memory := ∅;
             console := [Cprintf "Unknown command '%s'\n"
                           [AStr (chars "exit")]];
             ebp := 0 |}.
Proof.
  apply (runcmd_unknown_command (call (K := i386 flat_walk) 8) commands
           (boot "exit now" ∅) [] (chars "exit now") [] (chars "exit")
           [chars "now"] 0).
  - by_compute.
  - reflexivity.
  - reflexivity.
  - simpl. lia.
  - repeat constructor; first [by_compute | discriminate].
Defined.

(** The table of monitor.c read by name. *)
Lemma lookup_commands `{K : Kernel} (fuel : nat) (c : Command monfn)
    (argc : Z) (argv : list nat) (tf : Z) (m : machine) (a0 : nat) :
  c ∈ commands ->
  argv !! 0%nat = Some a0 ->
  cstr (linebuf m) a0 = Some (chars (name c)) ->
  lookup_cmd (call fuel) commands argc argv tf m
  = call fuel (func c) argc argv tf m.
Proof.
  intros Hc Ha0 Htok. unfold commands in *.
  repeat (apply elem_of_cons in Hc as [->|Hc];
          [match goal with
           | |- lookup_cmd _ ?l _ _ _ _ = call _ (func ?e) _ _ _ _ =>
               let rec split_at pre l :=
                 lazymatch l with
                 | e :: ?post =>
                     apply (lookup_cmd_first (call fuel) (rev pre) e post
                              argc argv tf m a0 (chars (name e)))
                 | ?x :: ?post => split_at (x :: pre) post
                 end in
               split_at (@nil (Command monfn)) l
           end;
           [done|done| |done];
           simpl rev; repeat constructor; first [by_compute | discriminate]
          |]).
  by apply elem_of_nil in Hc.
Qed.

(** X8. Every entry of the command table is reached by its name: on a
    line of at most 15 tokens whose first token is the name of an entry
    of [commands], [runcmd] calls that entry's function with the number
    of tokens and the tokens themselves. The six names are distinct. *)
Theorem runcmd_reaches_each_command `{K : Kernel} (fuel : nat)
    (c : Command monfn) (m : machine) (pre line post : list ascii)
    (rest : list (list ascii)) (tf : Z) :
  c ∈ commands ->
  NUL ∉ line ->
  linebuf m = pre ++ line ++ NUL :: post ->
  tokens line = chars (name c) :: rest ->
  (length rest < 15)%nat ->
  let m1 := set_linebuf (pre ++ (blank <$> line) ++ NUL :: post) m in
  NoDup (name <$> commands) /\
  exists argv,
    Forall2 (fun a t => cstr (linebuf m1) a = Some t) argv
      (chars (name c) :: rest) /\
    runcmd fuel (length pre) tf m
    = call fuel (func c) (Z.of_nat (S (length rest))) argv tf m1.
Proof.
  intros Hc Hnul Hb Htok Hlen m1. split.
  { by_compute. }
  destruct (runcmd_in_tokenized m pre line post tf Hnul Hb)
    as (argv & _ & Hargv & Hrun); [rewrite Htok; simpl; lia|].
  fold m1 in Hargv, Hrun. rewrite Htok in Hargv.
  exists argv. split; [done|]. unfold runcmd. rewrite Hrun.
  pose proof (Forall2_length _ _ _ Hargv) as Hlen'. simpl in Hlen'.
  apply Forall2_cons_inv_r in Hargv as (a0 & argv' & Ha0 & _ & ->).
  rewrite decide_False by done. rewrite Hlen'.
  by apply (lookup_commands fuel c _ _ tf m1 a0).
Qed.

Lemma runcmd_reaches_each_command_witness :
  exists argv m1,
    runcmd (K := i386 flat_walk) 8 0 0 (boot "setperm 0x1000 0 W" sample_table)
    = setm (K := i386 flat_walk) 4 argv 0 m1.
Proof.
  destruct (runcmd_reaches_each_command (K := i386 flat_walk) 8
              {| name := "setperm"; desc := "Set permission"; func := fn_setm |}
              (boot "setperm 0x1000 0 W" sample_table) []
              (chars "setperm 0x1000 0 W") []
              [chars "0x1000"; chars "0"; chars "W"] 0)
    as (_ & argv & _ & Hrun).
  - unfold commands. do 4 apply list_elem_of_further. apply list_elem_of_here.
  - by_compute.
  - reflexivity.
  - reflexivity.
  - simpl. lia.
  - exists argv. eexists. exact Hrun.
Defined.

(** X9. [showmp], [setperm] and [showvm] typed with another number of
    arguments than they want only print their usage line and return 0:
    no argument is parsed, no lookup made, the memory is untouched. *)
Theorem runcmd_wrong_argument_count `{K : Kernel} (fuel : nat)
    (cmd usage : string) (n : nat) (m : machine)
    (pre line post : list ascii) (rest : list (list ascii)) (tf : Z) :
  (cmd, n, usage) ∈ usages ->
  NUL ∉ line ->
  linebuf m = pre ++ line ++ NUL :: post ->
  tokens line = chars cmd :: rest ->
  (length rest < 15)%nat ->
  S (length rest) <> n ->
  runcmd fuel (length pre) tf m
  = Ret 0 (emit (Cprintf usage [])
             (set_linebuf (pre ++ (blank <$> line) ++ NUL :: post) m)).
Proof.
  intros Hcmd Hnul Hb Htok Hlen Hn.
  destruct (runcmd_in_tokenized m pre line post tf Hnul Hb)
    as (argv & _ & Hargv & Hrun); [rewrite Htok; simpl; lia|].
  rewrite Htok in Hargv. unfold runcmd. rewrite Hrun.
  pose proof (Forall2_length _ _ _ Hargv) as Hlen'. simpl in Hlen'.
  apply Forall2_cons_inv_r in Hargv as (a0 & argv' & Ha0 & _ & ->).
  rewrite decide_False by done. rewrite Hlen'.
  unfold usages in Hcmd.
  repeat (apply elem_of_cons in Hcmd as [Hcmd|Hcmd]);
    [injection Hcmd as -> -> ->..|by apply elem_of_nil in Hcmd].
  - rewrite (lookup_commands fuel
               {| name := "showmp"; desc := "Display mapping from vm to pm";
                  func := fn_showmappings |} _ _ tf _ a0); try done.
    + simpl. unfold showmappings.
      rewrite (proj2 (Z.eqb_neq _ 3)) by lia. done.
    + unfold commands. do 3 apply list_elem_of_further.
      apply list_elem_of_here.
  - rewrite (lookup_commands fuel
               {| name := "setperm"; desc := "Set permission";
                  func := fn_setm |} _ _ tf _ a0); try done.
    + simpl. unfold setm.
      rewrite (proj2 (Z.eqb_neq _ 4)) by lia. done.
    + unfold commands. do 4 apply list_elem_of_further.
      apply list_elem_of_here.
  - rewrite (lookup_commands fuel
               {| name := "showvm"; desc := "Display virtual memory";
                  func := fn_showvm |} _ _ tf _ a0); try done.
    + simpl. unfold showvm.
      rewrite (proj2 (Z.eqb_neq _ 3)) by lia. done.
    + unfold commands. do 5 apply list_elem_of_further.
      apply list_elem_of_here.
Qed.

Lemma runcmd_wrong_argument_count_witness :
  runcmd (K := i386 null_walk) 8 0 0 (boot "setperm 0x1000 W" sample_table)
  = Ret 0 {| linebuf := chars "setperm" ++ NUL :: chars "0x1000"
                          ++ NUL :: chars "W" ++ [NUL];
             memory := sample_table;
             console :=
               [Cprintf "Usage: setm 0xaddr [clear(0)|set(1)] [P|W|U]\n" []];
             ebp := 0 |}.
Proof.
  apply (runcmd_wrong_argument_count (K := i386 null_walk) 8 "setperm"
           "Usage: setm 0xaddr [clear(0)|set(1)] [P|W|U]\n" 4
           (boot "setperm 0x1000 W" sample_table) []
           (chars "setperm 0x1000 W") [] [chars "0x1000"; chars "W"] 0).
  - unfold usages. apply list_elem_of_further, list_elem_of_here.
  - by_compute.
  - reflexivity.
  - reflexivity.
  - simpl. lia.
  - simpl. lia.
Defined.

Lemma words_wellformed l : forall acc,
  Forall (fun c => is_ws c = false) acc ->
  Forall (fun t => t <> [] /\ Forall (fun c => is_ws c = false) t)
    (words acc l).
Proof.
  induction l as [|c l IH]; intros acc Hacc; simpl.
  - destruct acc; [constructor|]. constructor; [by split|constructor].
  - destruct (is_ws c) eqn:Hc.
    + destruct acc.
      * apply IH. constructor.
      * constructor; [done|]. apply IH. constructor.
    + apply IH. apply Forall_app. split; [done|].
      constructor; [done|constructor].
Qed.

(** X10. What the tokenizer hands to a command: when the loop of
    [runcmd] leaves by [break], it has stored at most 15 arguments, each
    the start of a non-empty string of the buffer without whitespace;
    memory and console are as they were and the buffer has kept its
    length. *)
Theorem parse_args_arguments (m m1 : machine) (pre line post : list ascii)
    (argv : list nat) :
  NUL ∉ line ->
  linebuf m = pre ++ line ++ NUL :: post ->
  parse_args (S (length (linebuf m))) (length pre) [] m = Ret (Some argv) m1 ->
  (length argv <= 15)%nat /\
  Forall (fun a => exists t, cstr (linebuf m1) a = Some t /\ t <> [] /\
                             Forall (fun c => is_ws c = false) t) argv /\
  memory m1 = memory m /\ console m1 = console m /\
  length (linebuf m1) = length (linebuf m).
Proof.
  intros Hnul Hb Hparse.
  destruct (parse_args_tokens (S (length (linebuf m))) line pre post [] m
              Hnul Hb) as [Hok Hmany].
  { rewrite Hb, !length_app. simpl. lia. }
  destruct (le_lt_dec (length (tokens line)) 15) as [Hle|Hgt].
  - destruct Hok as (offs & Hgo & Hoffs); [simpl; lia|].
    rewrite Hgo in Hparse. injection Hparse as <- <-.
    pose proof (Forall2_length _ _ _ Hoffs) as Hlen.
    split; [simpl; lia|]. split; [|split; [done|split; [done|]]].
    + pose proof (words_wellformed line [] (Forall_nil_2 _)) as Hwf.
      fold (tokens line) in Hwf. simpl. clear Hgo Hlen Hle Hmany.
      revert Hoffs Hwf. generalize (tokens line). intros ts Hoffs.
      induction Hoffs as [|a t offs ts Ha _ IH]; intros Hwf; [constructor|].
      apply Forall_cons in Hwf as [Ht Hwf]. constructor; [|by apply IH].
      exists t. by split.
    + simpl. rewrite Hb, !length_app, length_fmap. done.
  - destruct Hmany as (l' & Hgo); [simpl; lia|].
    rewrite Hgo in Hparse. discriminate.
Qed.

Lemma parse_args_arguments_witness :
  exists argv m1,
    parse_args 14 0 [] (boot " showvm  0x0" ∅) = Ret (Some argv) m1 /\
    (length argv <= 15)%nat /\
    Forall (fun a => exists t, cstr (linebuf m1) a = Some t /\ t <> [] /\
                               Forall (fun c => is_ws c = false) t) argv.
Proof.
  destruct (parse_args 14 0 [] (boot " showvm  0x0" ∅))
    as [[argv|] m1| | | |] eqn:Hparse;
    try (vm_compute in Hparse; discriminate).
  exists argv, m1. split; [reflexivity|].
  destruct (parse_args_arguments (boot " showvm  0x0" ∅) m1 []
              (chars " showvm  0x0") [] argv) as (Hlen & Hall & _).
  - by_compute.
  - reflexivity.
  - exact Hparse.
  - by split.
Defined.

(** ** The memory dump and the range display *)

Lemma emits_nil m : emits [] m = m.
Proof. destruct m. unfold emits. simpl. by rewrite app_nil_r. Qed.

Lemma emits_emit e es m : emits es (emit e m) = emits (e :: es) m.
Proof. unfold emits, emit. simpl. by rewrite <- app_assoc. Qed.

Lemma emits_emits es1 es2 m : emits es2 (emits es1 m) = emits (es1 ++ es2) m.
Proof. unfold emits. simpl. by rewrite <- app_assoc. Qed.

Section Dump.
Context `{K : Kernel}.

Lemma showvm_loop_words n : forall addr i fuel m,
  0 <= i -> i + Z.of_nat n < 2 ^ 32 ->
  Forall (fun a => is_Some (memory m !! a)) (word_addrs n addr i) ->
  (n < fuel)%nat ->
  showvm_loop fuel addr i (i + Z.of_nat n) m
  = Ret tt (emits (showvm_line (memory m) <$> word_addrs n addr i) m).
Proof.
  induction n as [|n IH]; intros addr i fuel m Hi Hn Hread Hfuel;
    (destruct fuel as [|fuel]; [lia|]); cbn [showvm_loop].
  - unfold u32. rewrite Z.mod_small by lia.
    rewrite (proj2 (Z.ltb_ge _ _)) by lia. simpl. by rewrite emits_nil.
  - unfold u32 at 1. rewrite Z.mod_small by lia.
    rewrite (proj2 (Z.ltb_lt _ _)) by lia.
    simpl in Hread. apply Forall_cons in Hread as [[v Hv] Hread].
    unfold bind. rewrite (load_at _ _ _ Hv). cbn [cprintf].
    replace (i + Z.of_nat (S n)) with ((i + 1) + Z.of_nat n) by lia.
    rewrite IH; [|lia|lia|done|lia].
    rewrite emits_emit. simpl. unfold showvm_line at 2. by rewrite Hv.
Qed.

(** X11. [showvm addr n] prints the [n] words at [addr], [addr + 4],
    ... in this order, one line each with the address and the value,
    and returns 0; for [n = 0] it prints nothing. It changes nothing
    but the console (the address tokens apart). *)
Theorem showvm_dumps_words (a0 a1 a2 : nat) (tf : Z) (m m1 m2 : machine)
    (addr : Z) (n fuel : nat) :
  xtoi a1 m = Ret addr m1 ->
  xtoi a2 m1 = Ret (Z.of_nat n) m2 ->
  Z.of_nat n < 2 ^ 32 ->
  Forall (fun a => is_Some (memory m2 !! a)) (word_addrs n addr 0) ->
  (n < fuel)%nat ->
  showvm fuel 3 [a0; a1; a2] tf m
  = Ret 0 (emits (showvm_line (memory m2) <$> word_addrs n addr 0) m2).
Proof.
  intros Hx1 Hx2 Hn Hread Hfuel. unfold showvm. simpl.
  unfold bind at 1. unfold argv_at at 1. simpl.
  unfold bind at 1. rewrite Hx1.
  unfold bind at 1. unfold argv_at at 1. simpl.
  unfold bind at 1. rewrite Hx2. unfold bind.
  pose proof (showvm_loop_words n addr 0 fuel m2) as Hloop.
  rewrite Z.add_0_l in Hloop. by rewrite Hloop by (done || lia).
Qed.

Lemma showmappings_body_mapped begin m :
  page_mapped (memory m) begin ->
  showmappings_body begin m
  = Ret tt (emits (page_report (memory m) begin) m).
Proof.
  intros (pte & e & Hw & Hpte & He).
  unfold showmappings_body, page_report, bind, walk. rewrite Hw. simpl.
  rewrite (proj2 (Z.eqb_neq _ _) Hpte). unfold ret.
  assert (Hm : set_memory (memory m) m = m) by (by destruct m).
  rewrite Hm, (load_at _ _ _ He), He.
  destruct (negb (Z.land e PTE_P =? 0)).
  - cbn [cprintf]. rewrite (myprint_at pte e) by done.
    unfold emits, emit. simpl. by rewrite <- app_assoc.
  - by cbn [cprintf].
Qed.

(** What [xtoi] returns is a [uint32_t]. *)
Lemma xtoi_loop_range fuel : forall p res m v m',
  0 <= res < 2 ^ 32 ->
  xtoi_loop fuel p res m = Ret v m' -> 0 <= v < 2 ^ 32.
Proof.
  induction fuel as [|fuel IH]; intros p res m v m' Hres; [done|].
  cbn [xtoi_loop]. unfold bind at 1. unfold peek at 1.
  destruct (linebuf m !! p) as [c|]; [|done].
  destruct (is_nul c); [by intros [= <- _]|].
  unfold bind at 1.
  destruct ((if schar "a" <=? schar c
             then poke p (to_char (schar c - schar "a" + schar "0" + 10))
             else ret ()) m) as [[] m1| | | |]; try done.
  unfold bind, peek. destruct (linebuf m1 !! p) as [c'|]; [|done].
  apply IH. unfold u32. apply Z.mod_pos_bound. lia.
Qed.

Lemma xtoi_range buf m v m' : xtoi buf m = Ret v m' -> 0 <= v < 2 ^ 32.
Proof. unfold xtoi. apply xtoi_loop_range. lia. Qed.

(** The loop over [n] pages whose lookups succeed, up to the round
    after them. *)
Lemma showmappings_loop_pages n : forall begin end' fuel m,
  0 <= begin ->
  0 < PGSIZE ->
  ((0 < n)%nat ->
   begin + Z.of_nat n * PGSIZE < 2 ^ 32 /\
   begin + (Z.of_nat n - 1) * PGSIZE <= end') ->
  Forall (page_mapped (memory m)) (page_addrs n begin) ->
  (n <= fuel)%nat ->
  showmappings_loop fuel begin end' m
  = showmappings_loop (fuel - n) (begin + Z.of_nat n * PGSIZE) end'
      (emits (concat (page_report (memory m) <$> page_addrs n begin)) m).
Proof.
  induction n as [|n IH]; intros begin end' fuel m Hb HP Hin Hmap Hfuel.
  - simpl. rewrite Nat.sub_0_r, Z.add_0_r. by rewrite emits_nil.
  - destruct fuel as [|fuel]; [lia|]. cbn [showmappings_loop].
    destruct Hin as [Hwrap Hlast]; [lia|].
    rewrite (proj2 (Z.leb_le _ _)) by nia.
    simpl in Hmap. apply Forall_cons in Hmap as [Hhere Hmap].
    unfold bind. rewrite (showmappings_body_mapped _ _ Hhere).
    unfold u32. rewrite Z.mod_small by nia.
    rewrite (IH (begin + PGSIZE) end' fuel); [|lia|done| |done|lia].
    + simpl. rewrite emits_emits. f_equal. lia.
    + intros Hn. split; lia.
Qed.

Lemma showmappings_args (fuel : nat) (a0 a1 a2 : nat) (tf : Z)
    (m m1 m2 : machine) (begin end' : Z) :
  xtoi a1 m = Ret begin m1 ->
  xtoi a2 m1 = Ret end' m2 ->
  showmappings fuel 3 [a0; a1; a2] tf m
  = (showmappings_loop fuel begin end' ;;; ret 0)
      (emit (Cprintf "RANGE: from %x to %x\n" [AInt begin; AInt end']) m2).
Proof.
  intros Hx1 Hx2. unfold showmappings. simpl.
  unfold bind at 1. unfold argv_at at 1. simpl.
  unfold bind at 1. rewrite Hx1.
  unfold bind at 1. unfold argv_at at 1. simpl.
  unfold bind at 1. rewrite Hx2. unfold bind at 1. by cbn [cprintf].
Qed.

(** X12. [showmp begin end] with lookups that succeed and allocate
    nothing: after the [RANGE] line it reports the [n] pages [begin],
    [begin + PGSIZE], ... that are at most [end], in this order, each as
    present with its three permission fields or as not existing, and
    returns 0, provided the first page address above [end] is below
    2^32 (no wrap-around). With [begin > end], whatever the two are, it
    reports no page. After parsing its arguments it changes nothing but
    the console. *)
Theorem showmappings_reports_range (a0 a1 a2 : nat) (tf : Z)
    (m m1 m2 : machine) (begin end' : Z) (n fuel : nat) :
  xtoi a1 m = Ret begin m1 ->
  xtoi a2 m1 = Ret end' m2 ->
  0 < PGSIZE ->
  end' < begin + Z.of_nat n * PGSIZE ->
  ((0 < n)%nat ->
   begin + (Z.of_nat n - 1) * PGSIZE <= end' /\
   begin + Z.of_nat n * PGSIZE < 2 ^ 32) ->
  Forall (page_mapped (memory m2)) (page_addrs n begin) ->
  (n < fuel)%nat ->
  showmappings fuel 3 [a0; a1; a2] tf m
  = Ret 0 (emits (Cprintf "RANGE: from %x to %x\n" [AInt begin; AInt end']
                    :: concat (page_report (memory m2) <$> page_addrs n begin))
             m2).
Proof.
  intros Hx1 Hx2 HP Hout Hin Hmap Hfuel.
  pose proof (xtoi_range _ _ _ _ Hx1) as Hb.
  rewrite (showmappings_args fuel a0 a1 a2 tf m m1 m2 begin end' Hx1 Hx2).
  unfold bind.
  rewrite (showmappings_loop_pages n begin end' fuel);
    [|lia|done| |done|lia].
  - destruct (fuel - n)%nat as [|fuel'] eqn:Hf; [lia|].
    cbn [showmappings_loop]. rewrite (proj2 (Z.leb_gt _ _)) by lia.
    simpl. unfold ret. by rewrite emits_emit.
  - intros Hn. destruct (Hin Hn). by split.
Qed.

(** X13. When the first [n] pages of the range are mapped (their
    lookups succeed and allocate nothing) and [pgdir_walk] returns null
    for the next page, which is not above [end], [showmp] has reported
    those [n] pages and then stops in [panic("out of memory")]: it does
    not return. *)
Theorem showmappings_panics_in_range (a0 a1 a2 : nat) (tf : Z)
    (m m1 m2 : machine) (begin end' : Z) (n fuel : nat)
    (mem' : gmap Z Z) :
  xtoi a1 m = Ret begin m1 ->
  xtoi a2 m1 = Ret end' m2 ->
  0 < PGSIZE ->
  begin + Z.of_nat n * PGSIZE <= end' ->
  Forall (page_mapped (memory m2)) (page_addrs n begin) ->
  pgdir_walk (begin + Z.of_nat n * PGSIZE) 1 (memory m2) = (0, mem') ->
  (n < fuel)%nat ->
  showmappings fuel 3 [a0; a1; a2] tf m
  = Panic "out of memory"
      (set_memory mem'
         (emits (Cprintf "RANGE: from %x to %x\n" [AInt begin; AInt end']
                   :: concat (page_report (memory m2) <$> page_addrs n begin))
            m2)).
Proof.
  intros Hx1 Hx2 HP Hin Hmap Hnull Hfuel.
  pose proof (xtoi_range _ _ _ _ Hx1) as Hb.
  pose proof (xtoi_range _ _ _ _ Hx2) as He.
  rewrite (showmappings_args fuel a0 a1 a2 tf m m1 m2 begin end' Hx1 Hx2).
  unfold bind.
  rewrite (showmappings_loop_pages n begin end' fuel);
    [|lia|done| |done|lia].
  - destruct (fuel - n)%nat as [|fuel'] eqn:Hf; [lia|].
    rewrite (showmappings_null_panics fuel' _ end' _ mem') by (done || lia).
    by rewrite emits_emit.
  - intros Hn. split; lia.
Qed.

End Dump.

Lemma showvm_dumps_words_witness :
  showvm 3 3 [0; 7; 18]%nat 0
    (tokenized ["showvm"; "0xf010ff18"; "0x2"] sample_stack)
  = Ret 0 (emits [Cprintf "VM at %x: %x\n" [AInt 0xf010ff18; AInt 0xf010ff38];
                  Cprintf "VM at %x: %x\n" [AInt 0xf010ff1c; AInt 0xf0100068]]
             (tokenized ["showvm"; "0x?010??18"; "0x2"] sample_stack)).
Proof.
  apply (showvm_dumps_words 0 7 18 0
           (tokenized ["showvm"; "0xf010ff18"; "0x2"] sample_stack)
           (tokenized ["showvm"; "0x?010??18"; "0x2"] sample_stack)
           (tokenized ["showvm"; "0x?010??18"; "0x2"] sample_stack)
           0xf010ff18 2 3).
  - by vm_compute.
  - by vm_compute.
  - simpl. lia.
  - repeat constructor; by eexists.
  - lia.
Defined.

Lemma showmappings_reports_range_witness :
  showmappings (K := i386 flat_walk) 3 3 [0; 7; 14]%nat 0
    (tokenized ["showmp"; "0x1000"; "0x2fff"]
       (<[0xf0400008 := 0]> sample_table))
  = Ret 0
      (emits [Cprintf "RANGE: from %x to %x\n" [AInt 0x1000; AInt 0x2fff];
              Cprintf "page %x info as follow: " [AInt 0x1000];
              Cprintf "PTE_P: %x, PTE_W: %x, PTE_U: %x\n"
                [AInt 1; AInt 2; AInt 4];
              Cprintf "page not exist: %x\n" [AInt 0x2000]]
         (tokenized ["showmp"; "0x1000"; "0x2???"]
            (<[0xf0400008 := 0]> sample_table))) /\
  showmappings (K := i386 null_walk) 1 3 [0; 7; 18]%nat 0
    (tokenized ["showmp"; "0xfffff000"; "0x1000"] sample_table)
  = Ret 0
      (emits [Cprintf "RANGE: from %x to %x\n"
                [AInt 0xfffff000; AInt 0x1000]]
         (tokenized ["showmp"; "0x?????000"; "0x1000"] sample_table)).
Proof.
  split.
  - etrans.
    + apply (showmappings_reports_range (K := i386 flat_walk) 0 7 14 0
               (tokenized ["showmp"; "0x1000"; "0x2fff"]
                  (<[0xf0400008 := 0]> sample_table))
               (tokenized ["showmp"; "0x1000"; "0x2fff"]
                  (<[0xf0400008 := 0]> sample_table))
               (tokenized ["showmp"; "0x1000"; "0x2???"]
                  (<[0xf0400008 := 0]> sample_table))
               0x1000 0x2fff 2 3);
        [by vm_compute|by vm_compute|simpl; lia|simpl; lia
        |simpl; lia| |lia].
      repeat constructor; eexists _, _; (split; [reflexivity|]);
        (split; [by vm_compute|by vm_compute]).
    + vm_compute. reflexivity.
  - apply (showmappings_reports_range (K := i386 null_walk) 0 7 18 0
             (tokenized ["showmp"; "0xfffff000"; "0x1000"] sample_table)
             (tokenized ["showmp"; "0x?????000"; "0x1000"] sample_table)
             (tokenized ["showmp"; "0x?????000"; "0x1000"] sample_table)
             0xfffff000 0x1000 0 1);
      [by vm_compute|by vm_compute|simpl; lia|simpl; lia|lia
      |constructor|lia].
Defined.

Lemma showmappings_panics_in_range_witness :
  showmappings (K := i386 partial_walk) 2 3 [0; 7; 14]%nat 0
    (tokenized ["showmp"; "0x1000"; "0x2000"] sample_table)
  = Panic "out of memory"
      (emits [Cprintf "RANGE: from %x to %x\n" [AInt 0x1000; AInt 0x2000];
              Cprintf "page %x info as follow: " [AInt 0x1000];
              Cprintf "PTE_P: %x, PTE_W: %x, PTE_U: %x\n"
                [AInt 1; AInt 2; AInt 4]]
         (tokenized ["showmp"; "0x1000"; "0x2000"] sample_table)).
Proof.
  etrans.
  - apply (showmappings_panics_in_range (K := i386 partial_walk) 0 7 14 0
             (tokenized ["showmp"; "0x1000"; "0x2000"] sample_table)
             (tokenized ["showmp"; "0x1000"; "0x2000"] sample_table)
             (tokenized ["showmp"; "0x1000"; "0x2000"] sample_table)
             0x1000 0x2000 1 2 sample_table);
      [by vm_compute|by vm_compute|simpl; lia|simpl; lia| |reflexivity|lia].
    repeat constructor; eexists _, _; (split; [reflexivity|]);
      (split; [by vm_compute|by vm_compute]).
  - vm_compute. reflexivity.
Defined.

(** ** The stack walker off the beaten path *)

Section Paths.
Context `{K : Kernel}.

(** Walking along a path: the budget runs out on the way, or the walker
    stands at the end of the path with the frames printed. *)
Lemma backtrace_loop_path mem p fs q :
  frame_path mem p fs q ->
  forall fuel m,
    memory m = mem ->
    backtrace_loop fuel p m
    = if (fuel <? length fs)%nat then Timeout
      else backtrace_loop (fuel - length fs) q
             (emits (concat (frame_lines <$> fs)) m).
Proof.
  induction 1 as [p|p eip a2 a3 a4 a5 a6 saved fs q Hp H0 H1 H2 H3 H4 H5 H6 _
                    IH]; intros fuel m Hmem.
  - simpl. by rewrite Nat.sub_0_r, emits_nil.
  - destruct fuel as [|fuel]; [done|].
    cbn [backtrace_loop]. rewrite (proj2 (Z.eqb_neq p 0) Hp).
    subst mem. unfold bind.
    rewrite (load_at _ _ _ H1), (load_at _ _ _ H2), (load_at _ _ _ H3),
      (load_at _ _ _ H4), (load_at _ _ _ H5), (load_at _ _ _ H6).
    cbn [cprintf]. rewrite (load_at p saved) by done.
    rewrite IH by done. simpl length.
    change (S fuel <? S (length fs))%nat with (fuel <? length fs)%nat.
    destruct (fuel <? length fs)%nat; [done|].
    simpl. by rewrite !emits_emit.
Qed.

(** X14. The walker has no guard against a cycle: when the saved frame
    pointers lead from the current frame back to it, [mon_backtrace]
    never returns, whatever the step budget. *)
Theorem mon_backtrace_cycle (m : machine) (fs : list Frame) (fuel : nat)
    (argc : Z) (argv : list nat) (tf : Z) :
  frame_path (memory m) (ebp m) fs (ebp m) ->
  fs <> [] ->
  mon_backtrace fuel argc argv tf m = Timeout.
Proof.
  intros Hpath Hfs. unfold mon_backtrace, bind. cbn [cprintf]. simpl.
  assert (Hloop : forall fuel m', memory m' = memory m ->
            backtrace_loop fuel (ebp m) m' = Timeout).
  { clear fuel. intros fuel.
    induction fuel as [fuel IH] using lt_wf_ind. intros m' Hmem.
    rewrite (backtrace_loop_path _ _ _ _ Hpath fuel m' Hmem).
    destruct (fuel <? length fs)%nat eqn:Hlt; [done|].
    apply Nat.ltb_ge in Hlt. apply IH; [|done].
    destruct fs; [done|]. simpl in *. lia. }
  by rewrite Hloop.
Qed.

(** X15. The walker trusts the saved frame pointers: when they lead to
    a non-null pointer whose return-address word cannot be read,
    [mon_backtrace] prints the frames before it and then faults instead
    of returning. *)
Theorem mon_backtrace_bad_pointer (m : machine) (fs : list Frame) (q : Z)
    (fuel : nat) (argc : Z) (argv : list nat) (tf : Z) :
  frame_path (memory m) (ebp m) fs q ->
  q <> 0 ->
  memory m !! u32 (q + 4) = None ->
  (length fs < fuel)%nat ->
  mon_backtrace fuel argc argv tf m
  = Fault (emits (Cprintf "Stack backtrace:\n" []
                    :: concat (frame_lines <$> fs)) m).
Proof.
  intros Hpath Hq Hnone Hfuel. unfold mon_backtrace, bind. cbn [cprintf].
  simpl.
  rewrite (backtrace_loop_path _ _ _ _ Hpath fuel
             (emit (Cprintf "Stack backtrace:\n" []) m) eq_refl).
  rewrite (proj2 (Nat.ltb_ge _ _)) by lia.
  destruct (fuel - length fs)%nat as [|fuel'] eqn:Hf; [lia|].
  cbn [backtrace_loop]. rewrite (proj2 (Z.eqb_neq q 0) Hq).
  unfold bind, load. simpl. rewrite Hnone. by rewrite emits_emit.
Qed.

End Paths.

Lemma mon_backtrace_cycle_witness :
  mon_backtrace (K := i386 flat_walk) 1000 1 [0%nat] 0
    {| linebuf := chars "backtrace" ++ [NUL];
       memory := <[0xf010ff58 := 0xf010ff18]> sample_stack;
       console := []; ebp := 0xf010ff18 |} = Timeout.
Proof.
  apply (mon_backtrace_cycle (K := i386 flat_walk)
           {| linebuf := chars "backtrace" ++ [NUL];
              memory := <[0xf010ff58 := 0xf010ff18]> sample_stack;
              console := []; ebp := 0xf010ff18 |}
           [ {| fr_ebp := 0xf010ff18; fr_eip := 0xf0100068;
                fr_args := (1, 2, 3, 4, 5) |};
             {| fr_ebp := 0xf010ff38; fr_eip := 0xf0100069;
                fr_args := (6, 7, 8, 9, 10) |};
             {| fr_ebp := 0xf010ff58; fr_eip := 0xf010003e;
                fr_args := (11, 12, 13, 14, 15) |} ]).
  - simpl.
    apply (path_frame _ _ _ _ _ _ _ _ 0xf010ff38); [done|by vm_compute..|].
    apply (path_frame _ _ _ _ _ _ _ _ 0xf010ff58); [done|by vm_compute..|].
    apply (path_frame _ _ _ _ _ _ _ _ 0xf010ff18); [done|by vm_compute..|].
    apply path_here.
  - discriminate.
Defined.

Lemma mon_backtrace_bad_pointer_witness :
  exists m',
    mon_backtrace (K := i386 flat_walk) 4 1 [0%nat] 0
      {| linebuf := chars "backtrace" ++ [NUL];
         memory := <[0xf010ff58 := 0x10]> sample_stack;
         console := []; ebp := 0xf010ff18 |} = Fault m' /\
    length (console m') = 7%nat.
Proof.
  eexists. split.
  - apply (mon_backtrace_bad_pointer (K := i386 flat_walk)
             {| linebuf := chars "backtrace" ++ [NUL];
                memory := <[0xf010ff58 := 0x10]> sample_stack;
                console := []; ebp := 0xf010ff18 |}
             [ {| fr_ebp := 0xf010ff18; fr_eip := 0xf0100068;
                  fr_args := (1, 2, 3, 4, 5) |};
               {| fr_ebp := 0xf010ff38; fr_eip := 0xf0100069;
                  fr_args := (6, 7, 8, 9, 10) |};
               {| fr_ebp := 0xf010ff58; fr_eip := 0xf010003e;
                  fr_args := (11, 12, 13, 14, 15) |} ] 0x10).
    + simpl.
      apply (path_frame _ _ _ _ _ _ _ _ 0xf010ff38); [done|by vm_compute..|].
      apply (path_frame _ _ _ _ _ _ _ _ 0xf010ff58); [done|by vm_compute..|].
      apply (path_frame _ _ _ _ _ _ _ _ 0x10); [done|by vm_compute..|].
      apply path_here.
    + done.
    + by vm_compute.
    + simpl. lia.
  - reflexivity.
Defined.

(** ** More on the page-table editor and on [help] *)




Section EditorFrame.
Context `{K : Kernel}.


Lemma mon_help_loop_lines {F} (cmds : list (Command F)) m :
  mon_help_loop cmds m = Ret tt (emits (help_line <$> cmds) m).
Proof.
  revert m. induction cmds as [|c cmds IH]; intros m; simpl.
  - by rewrite emits_nil.
  - unfold bind. cbn [cprintf]. rewrite IH. by rewrite emits_emit.
Qed.

(** X17. [help] prints one line [name - desc] per entry of the command
    table, in the order of the table, whatever its arguments, and
    returns 0 with everything else as it was. *)
Theorem mon_help_lists_the_table (argc : Z) (argv : list nat) (tf : Z)
    (m : machine) :
  mon_help argc argv tf m = Ret 0 (emits (help_line <$> commands) m) /\
  length (help_line <$> commands) = 6%nat /\
  name <$> commands
  = ["help"; "kerninfo"; "backtrace"; "showmp"; "setperm"; "showvm"]%string.
Proof.
  split; [|done]. unfold mon_help, bind. by rewrite mon_help_loop_lines.
Qed.

End EditorFrame.

